(** * Date normalisation, ranking and search of a book library

    A shallow embedding of [sorter.py] ([parse_date], [sort_books]) and of
    the search filter of [app.py], with the properties the specification
    states about them.

    Conventions of the model.
    - A Python [str] is a [string]; its characters are code points below
      256 (Rocq's [ascii]).  Character-level work is done on the list of
      characters of the string.
    - A book record is a Python [dict] from field names to text:
      [gmap string string]; [book.get(k, "")] is [default "" (book !! k)].
    - A computation that may raise is a [result]: [Ret v] for a returned
      value, [Raise e] for an exception that propagates.
    - Python integers are unbounded: [Z]. *)

From Stdlib Require Import ZArith List Ascii String Bool Lia.
From Stdlib Require Import Sorting.Sorted Sorting.Permutation.
From stdpp Require Import gmap strings list.
Import ListNotations.

Local Open Scope Z_scope.
Local Open Scope string_scope.

(** ** Exceptions and results *)

Inductive exn : Type :=
  | ValueError.

Inductive result (A : Type) : Type :=
  | Ret (a : A)
  | Raise (e : exn).

Arguments Ret {A} a.
Arguments Raise {A} e.

Definition bind {A B : Type} (r : result A) (k : A -> result B) : result B :=
  match r with
  | Ret a => k a
  | Raise e => Raise e
  end.

Definition rmap {A B : Type} (f : A -> B) (r : result A) : result B :=
  bind r (fun a => Ret (f a)).

(** [[f(x) for x in l]], evaluated left to right; the first exception
    propagates. *)
Fixpoint map_result {A B : Type} (f : A -> result B) (l : list A)
  : result (list B) :=
  match l with
  | [] => Ret []
  | x :: l' =>
      bind (f x) (fun y => bind (map_result f l') (fun ys => Ret (y :: ys)))
  end.

(** ** Python strings *)

Module Str.

Definition chars (s : string) : list ascii := list_ascii_of_string s.

Definition code (c : ascii) : nat := nat_of_ascii c.

Definition char_eqb (a b : ascii) : bool := Ascii.eqb a b.

(** [str.isspace] on one character (code points below 256): tab to
    carriage return, the four separators 28 to 31, the space, NEL and the
    no-break space. *)
Definition is_space (c : ascii) : bool :=
  let n := code c in
  ((9 <=? n) && (n <=? 13) || (28 <=? n) && (n <=? 32)
   || (n =? 133) || (n =? 160))%nat.

(** The character class [[0-9]] of [re]. *)
Definition is_digit (c : ascii) : bool :=
  let n := code c in ((48 <=? n) && (n <=? 57))%nat.

(** [str.lower] on one character: the letters A-Z and the Latin-1
    capitals (192 to 222 but the multiplication sign 215) move up by 32. *)
Definition lower_char (c : ascii) : ascii :=
  let n := code c in
  if ((65 <=? n) && (n <=? 90)
      || (192 <=? n) && (n <=? 222) && negb (n =? 215))%nat
  then ascii_of_nat (n + 32) else c.

Definition lower (l : list ascii) : list ascii := map lower_char l.

Fixpoint lstrip (l : list ascii) : list ascii :=
  match l with
  | [] => []
  | c :: l' => if is_space c then lstrip l' else l
  end.

Definition rstrip (l : list ascii) : list ascii := rev (lstrip (rev l)).

(** [str.strip()] with no argument. *)
Definition strip (l : list ascii) : list ascii := rstrip (lstrip l).

Fixpoint starts_with (sub l : list ascii) : bool :=
  match sub, l with
  | [], _ => true
  | _ :: _, [] => false
  | a :: sub', b :: l' => char_eqb a b && starts_with sub' l'
  end.

(** [sub in l] on strings. *)
Fixpoint contains (sub l : list ascii) : bool :=
  starts_with sub l ||
  match l with
  | [] => false
  | _ :: l' => contains sub l'
  end.

(** [l.replace(c, "")] for a one-character [c]. *)
Definition remove_char (c : ascii) (l : list ascii) : list ascii :=
  List.filter (fun x => negb (char_eqb x c)) l.

(** Value of a string of decimal digits, most significant first. *)
Definition digit_value (c : ascii) : Z := Z.of_nat (code c) - 48.

Definition decimal (l : list ascii) : Z :=
  fold_left (fun acc c => 10 * acc + digit_value c) l 0.

(** [int(l)].  The tokens [parse_date] hands to [int] hold ASCII digits
    only ([clean_token_alphabet] below); on such a token [int] fails
    exactly when the token is empty.  Other spellings [int] accepts
    (signs, blanks, underscores) cannot reach it and are refused here. *)
Definition int (l : list ascii) : result Z :=
  match l with
  | [] => Raise ValueError
  | _ :: _ => if forallb is_digit l then Ret (decimal l) else Raise ValueError
  end.

End Str.

(** ** sorter.py: parse_date *)

(** [re.sub(r"[^0-9s]", "", date_str)]: every character that is neither a
    digit nor the letter s is deleted. *)
Definition keep_char (c : ascii) : bool :=
  Str.is_digit c || Str.char_eqb c "s"%char.

Definition clean (l : list ascii) : list ascii := List.filter keep_char l.

Definition is_bc (l : list ascii) : bool :=
  Str.contains (Str.chars "bc") l || Str.contains (Str.chars "b.c.") l.

Definition parse_date (date_str : option string) : result Z :=
  match date_str with
  | None => Ret 0
  | Some "" => Ret 0
  | Some s =>
      let date_str := Str.lower (Str.strip (Str.chars s)) in
      let bc := is_bc date_str in
      let date_str := clean date_str in
      if Str.contains (Str.chars "s") date_str then
        bind (Str.int (take 4 (Str.remove_char "s"%char date_str)))
          (fun year =>
             let year := year + 5 in
             Ret (if bc then - year else year))
      else
        match Str.int date_str with
        | Raise ValueError => Ret 0
        | Ret year => Ret (if bc then - year else year)
        end
  end.

(** ** sorter.py: sort_books *)

(** A book record: a dict from field names to text. *)
Abbreviation book := (gmap string string).

(** [d.get(k, dflt)]. *)
Definition get (d : book) (k : string) (dflt : string) : string :=
  default dflt (d !! k).

(** [a < b] on pairs of integers, as Python compares tuples: the first
    position where the two differ decides. *)
Definition key_lt (a b : Z * Z) : bool :=
  (if negb (a.1 =? b.1) then a.1 <? b.1
   else if negb (a.2 =? b.2) then a.2 <? b.2
   else false)%Z.

Definition sort_key (b : book) : result (Z * Z) :=
  bind (parse_date (Some (get b "original_date" ""))) (fun orig_date =>
  bind (parse_date (Some (get b "release_date" ""))) (fun rel_date =>
  Ret (orig_date, rel_date))).

(** [list.sort(key=..., reverse=...)] by its contract: the keys are
    computed once, in list order (an exception of the key function
    propagates); the decorated list is sorted by a stable sort that only
    asks [<] of two keys; for [reverse] the list is reversed before and
    after that stable sort.  The stable sort is an insertion sort: an
    element goes in front of the first element that is not smaller. *)
Section ListSort.

Context {K A : Type} (lt : K -> K -> bool).

Fixpoint insert_sorted (x : K * A) (l : list (K * A)) : list (K * A) :=
  match l with
  | [] => [x]
  | y :: l' => if lt y.1 x.1 then y :: insert_sorted x l' else x :: l
  end.

Fixpoint stable_sort (l : list (K * A)) : list (K * A) :=
  match l with
  | [] => []
  | x :: l' => insert_sorted x (stable_sort l')
  end.

Definition sort_decorated (reverse : bool) (d : list (K * A)) : list (K * A) :=
  let d := if reverse then rev d else d in
  let d := stable_sort d in
  if reverse then rev d else d.

Definition list_sort (key : A -> result K) (reverse : bool) (l : list A)
  : result (list A) :=
  bind (map_result key l) (fun keys =>
  Ret (map snd (sort_decorated reverse (combine keys l)))).

End ListSort.

(** [sorted(iterable, key=..., reverse=...)]: a new list holding the items
    of the iterable is sorted in place and returned. *)
Definition sorted {K A : Type} (lt : K -> K -> bool) (l : list A)
    (key : A -> result K) (reverse : bool) : result (list A) :=
  list_sort lt key reverse l.

Definition sort_books (books : list book) (reverse : bool)
  : result (list book) :=
  sorted key_lt books sort_key reverse.

(** The same call on list objects in a store, to speak of the object that
    is passed and the object that is returned.  A store maps the
    references allocated so far (those below [next]) to list values. *)
Module Store.

Record store : Type := { cells : nat -> list book; next : nat }.

Definition read (h : store) (r : nat) : list book := cells h r.

Definition write (h : store) (r : nat) (v : list book) : store :=
  {| cells := fun r' => if Nat.eqb r' r then v else cells h r';
     next := next h |}.

Definition alloc (h : store) (v : list book) : store * nat :=
  ({| cells := fun r' => if Nat.eqb r' (next h) then v else cells h r';
      next := S (next h) |}, next h).

(** [sorted(books, ...)] builds [list(books)], a new object, and sorts
    that object in place; if a key raises, the new list is dropped
    unsorted. *)
Definition sort_books (h : store) (books : nat) (reverse : bool)
  : store * result nat :=
  let '(h1, r) := alloc h (read h books) in
  match list_sort key_lt sort_key reverse (read h1 r) with
  | Ret out => (write h1 r out, Ret r)
  | Raise e => (h1, Raise e)
  end.

End Store.

(** ** app.py: the search filter (lines 28 to 35) *)

Definition matches (search_lower : list ascii) (b : book) : bool :=
  Str.contains search_lower (Str.lower (Str.chars (get b "title" "")))
  || Str.contains search_lower (Str.lower (Str.chars (get b "author" ""))).

Definition filter_books (books : list book) (search_query : string)
  : list book :=
  match search_query with
  | "" => books
  | _ =>
      let search_lower := Str.lower (Str.chars search_query) in
      List.filter (matches search_lower) books
  end.

(** ** Notions the statements below are phrased in *)

(** The digits of a text, in order. *)
Definition digits_of (s : string) : list ascii :=
  List.filter Str.is_digit (Str.chars s).

(** The text holds the letter s, in either case. *)
Definition has_letter_s (s : string) : bool :=
  existsb (fun c => Str.char_eqb c "s"%char || Str.char_eqb c "S"%char)
    (Str.chars s).

(** [sub] occurs in [s] up to the case of the letters of [s]. *)
Definition occurs_nocase (sub : string) (s : string) : Prop :=
  exists l m r : list ascii,
    Str.chars s = (l ++ m ++ r)%list /\ Str.lower m = Str.chars sub.

(** The era marker that [parse_date] computes for a text. *)
Definition bc_marker (s : string) : bool :=
  is_bc (Str.lower (Str.strip (Str.chars s))).

(** The cleaned token [parse_date] derives the year from. *)
Definition token_of (s : string) : list ascii :=
  clean (Str.lower (Str.strip (Str.chars s))).

(** The year before the sign is applied: the decade midpoint of a token
    with an s, else the value of the token, 0 when [int] refuses it. *)
Definition year_of_token (token : list ascii) : result Z :=
  if Str.contains (Str.chars "s") token then
    rmap (fun year => year + 5)
      (Str.int (take 4 (Str.remove_char "s"%char token)))
  else
    match Str.int token with
    | Raise _ => Ret 0
    | Ret year => Ret year
    end.

Definition apply_era (bc : bool) (year : Z) : Z :=
  if bc then - year else year.

(** The decade rule as the specification words it: at most the first four
    digits that stand before the s of the cleaned token, plus 5. *)
Fixpoint before_s (token : list ascii) : list ascii :=
  match token with
  | [] => []
  | c :: token' => if Str.char_eqb c "s"%char then [] else c :: before_s token'
  end.

Definition spec_decade_year (token : list ascii) : Z :=
  Str.decimal (take 4 (before_s token)) + 5.

(** The era marker as the specification words it: "bc" in any case, with
    or without periods inside. *)
Definition spec_bc_marker (s : string) : bool :=
  Str.contains (Str.chars "bc")
    (Str.remove_char "."%char (Str.lower (Str.chars s))).

Definition make_book (fields : list (string * string)) : book :=
  list_to_map fields.

(** Both date fields of a record normalise, that is, [parse_date] returns
    on them. *)
Definition dates_normalise (b : book) : Prop :=
  (exists y, parse_date (Some (get b "original_date" "")) = Ret y) /\
  (exists y, parse_date (Some (get b "release_date" "")) = Ret y).

(** Lexicographic order of two pairs: the first components decide, the
    second break a tie. *)
Definition lex_le (a b : Z * Z) : Prop :=
  a.1 < b.1 \/ (a.1 = b.1 /\ a.2 <= b.2).



(** ** Sample data *)

Definition dated (title original_date : string) : book :=
  make_book [("title", title); ("original_date", original_date)].

(** The four records of the end-to-end example of the specification. *)
Definition shelf : list book :=
  [dated "Silent Spring" "1963"; dated "De rerum natura" "80 BC";
   dated "Dune" "1960s"; make_book [("title", "Untitled")]].

(** Two printings of one work around a third record. *)
Definition first_printing : book :=
  make_book [("title", "Ulysses"); ("author", "James Joyce");
             ("original_date", "1922"); ("release_date", "1990s")].

Definition second_printing : book :=
  make_book [("title", "Ulysses (annotated)"); ("author", "James Joyce");
             ("original_date", "1922"); ("release_date", "1995")].

Definition hobbit : book :=
  make_book [("title", "The Hobbit"); ("author", "J.R.R. Tolkien");
             ("original_date", "1937")].


(** ** config.py *)

Definition IMAGE_DIR : string := "./Data/IMGS/".
Definition OUTPUT_FILE : string := "./Data/books.json".
Definition OLLAMA_HOST : string := "http://localhost:11434".
Definition MODEL_NAME : string := "gemma3:12b".

(** ** File names and paths *)

(** [l.endswith(suffix)]. *)
Definition ends_with (suffix l : list ascii) : bool :=
  Str.starts_with (rev suffix) (rev l).

(** [os.path.join(a, b)] of [posixpath]: an absolute [b] replaces [a];
    else [b] is appended, after a slash unless [a] is empty or ends with
    one. *)
Definition path_join (a b : string) : string :=
  if Str.starts_with (Str.chars "/") (Str.chars b) then b
  else if (match a with "" => true | _ => false end)
          || ends_with (Str.chars "/") (Str.chars a)
  then a ++ b
  else a ++ "/" ++ b.

Definition image_suffixes : list string := [".jpg"; ".jpeg"; ".png"].

(** [f.lower().endswith((".jpg", ".jpeg", ".png"))]. *)
Definition is_image (f : string) : bool :=
  existsb
    (fun suffix => ends_with (Str.chars suffix) (Str.lower (Str.chars f)))
    image_suffixes.

(** The image paths [main] collects from the names [os.listdir] gives. *)
Definition image_paths (names : list string) : list string :=
  map (path_join IMAGE_DIR) (List.filter is_image names).

(** ** extractor.py and main.py *)

Module Extractor.

(** Exceptions that leave [extract_book_info] or [main]. *)
Inductive error : Type :=
  | UnboundLocalError
  | OSError.

Inductive outcome (A : Type) : Type :=
  | Returns (a : A)
  | Raises (e : error).

Arguments Returns {A} a.
Arguments Raises {A} e.

(** What the call of the model does: it answers, it raises
    [json.JSONDecodeError], or it raises another [Exception]. *)
Inductive call (C : Type) : Type :=
  | Response (content : C)
  | CallJSONDecodeError
  | CallError.

Arguments Response {C} content.
Arguments CallJSONDecodeError {C}.
Arguments CallError {C}.

(** What [json.loads] does on the content of an answer: it returns a dict
    or a value of another type, or it raises [json.JSONDecodeError] or
    another [Exception] (a content that is not text). *)
Inductive decoded (V : Type) : Type :=
  | Dict (d : gmap string V)
  | NotDict
  | JSONDecodeError
  | LoadsError.

Arguments Dict {V} d.
Arguments NotDict {V}.
Arguments JSONDecodeError {V}.
Arguments LoadsError {V}.

(** The lines the two modules print. *)
Inductive line (C : Type) : Type :=
  | ErrorReading (image_path : string)
  | ErrorParsing (image_path : string) (content : C)
  | ErrorInvoking (image_path : string)
  | Processing (img_path : string)
  | ErrorsProcessing (errors : list string)
  | NoBooks
  | Saved (output_file : string).

Arguments ErrorReading {C} image_path.
Arguments ErrorParsing {C} image_path content.
Arguments ErrorInvoking {C} image_path.
Arguments Processing {C} img_path.
Arguments ErrorsProcessing {C} errors.
Arguments NoBooks {C}.
Arguments Saved {C} output_file.

(** The collaborators of the two modules: [V] is the type of the values
    of a decoded dict and [C] the type of the content of an answer.
    [read_base64] opens and reads the image and encodes it ([None]: an
    [Exception]); [listdir] is [os.listdir] ([None]: an [OSError]). *)
Record world (V C : Type) : Type := {
  str_value : string -> V;
  read_base64 : string -> option string;
  prompt : string;
  invoke : string -> string -> string -> string -> call C;
  loads : C -> decoded V;
  listdir : string -> option (list string)
}.

Arguments str_value {V C} w.
Arguments read_base64 {V C} w.
Arguments prompt {V C} w.
Arguments invoke {V C} w.
Arguments loads {V C} w.
Arguments listdir {V C} w.

Section Run.

Context {V C : Type} (w : world V C).

(** The handler of [json.JSONDecodeError] prints [response.content]: when
    the call of the model raised that exception, [response] was never
    bound and the handler itself raises [UnboundLocalError], which no
    clause of the [try] catches.  Item assignment on a decoded value that
    is not a dict raises [TypeError], caught by the last clause. *)
Definition extract_book_info (image_path ollama_host model_name : string)
  : list (line C) * outcome (gmap string V) :=
  match read_base64 w image_path with
  | None => ([ErrorReading image_path], Returns ∅)
  | Some base64_image =>
      match invoke w ollama_host model_name (prompt w)
              ("data:image/jpeg;base64," ++ base64_image) with
      | CallJSONDecodeError => ([], Raises UnboundLocalError)
      | CallError => ([ErrorInvoking image_path], Returns ∅)
      | Response content =>
          match loads w content with
          | JSONDecodeError =>
              ([ErrorParsing image_path content], Returns ∅)
          | LoadsError => ([ErrorInvoking image_path], Returns ∅)
          | NotDict => ([ErrorInvoking image_path], Returns ∅)
          | Dict info =>
              ([], Returns (<["image_path" := str_value w image_path]> info))
          end
      end
  end.

(** The loop of [main] over the image paths; [if info] is the test that
    the dict is not empty. *)
Fixpoint process (image_paths : list string) (books : list (gmap string V))
    (errors : list string) (printed : list (line C))
  : list (line C) * outcome (list (gmap string V) * list string) :=
  match image_paths with
  | [] => (printed, Returns (books, errors))
  | img_path :: image_paths' =>
      let printed := (printed ++ [Processing img_path])%list in
      let '(lines, r) := extract_book_info img_path OLLAMA_HOST MODEL_NAME in
      let printed := (printed ++ lines)%list in
      match r with
      | Raises e => (printed, Raises e)
      | Returns info =>
          if Nat.eqb (size info) 0
          then process image_paths' books (errors ++ [img_path])%list printed
          else process image_paths' (books ++ [info])%list errors printed
      end
  end.

(** [main]: what it prints, and the list it dumps into [OUTPUT_FILE]
    ([None]: the file is not written). *)
Definition main
  : list (line C) * outcome (option (list (gmap string V))) :=
  match listdir w IMAGE_DIR with
  | None => ([], Raises OSError)
  | Some names =>
      let '(printed, r) := process (image_paths names) [] [] [] in
      match r with
      | Raises e => (printed, Raises e)
      | Returns (books, errors) =>
          let printed :=
            match errors with
            | [] => printed
            | _ :: _ => (printed ++ [ErrorsProcessing errors])%list
            end in
          match books with
          | [] => ((printed ++ [NoBooks])%list, Returns None)
          | _ :: _ =>
              ((printed ++ [Saved OUTPUT_FILE])%list, Returns (Some books))
          end
      end
  end.

End Run.

End Extractor.

(** [main] keeps the record of an image: [extract_book_info] returns on
    its path, with a dict that is not empty. *)
Definition extracts {V C : Type} (w : Extractor.world V C) (img_path : string)
  : bool :=
  match (Extractor.extract_book_info w img_path OLLAMA_HOST MODEL_NAME).2 with
  | Extractor.Returns info => negb (Nat.eqb (size info) 0)
  | Extractor.Raises _ => false
  end.

(** ** app.py: the page (lines 21 to 78) *)

Inductive widget : Type :=
  | StError (body : string)
  | StWarning (body : string)
  | StSubheader (body : string)
  | StMarkdown (body : string)
  | StImage (image : string) (caption : string)
  | StText (body : string)
  | StWrite (body : string).

(** One record on the page.  [path_exists] is [os.path.exists];
    [image_fails] tells whether [st.image] raises on a path, and with what
    message. *)
Definition show_book (path_exists : string -> bool)
    (image_fails : string -> option string) (b : book) : list widget :=
  [ StMarkdown "---";
    match b !! "image_path" with
    | Some image_path =>
        if negb (match image_path with "" => true | _ => false end)
           && path_exists image_path
        then
          match image_fails image_path with
          | None => StImage image_path (get b "title" "N/A")
          | Some e => StText ("Error loading image: " ++ e)
          end
        else StText "Image not available"
    | None => StText "Image not available"
    end;
    StWrite ("**Title:** " ++ get b "title" "N/A");
    StWrite ("**Author:** " ++ get b "author" "N/A");
    StWrite ("**Description:** " ++ get b "description" "N/A");
    StWrite ("**Original Date:** " ++ get b "original_date" "N/A");
    StWrite ("**Release Date:** " ++ get b "release_date" "N/A");
    StWrite ("**Original Location:** " ++ get b "original_location" "N/A");
    StWrite ("**Original Language:** " ++ get b "original_language" "N/A");
    StWrite ("**Edition Language:** " ++ get b "edition_language" "N/A") ].

(** The page below the controls: [file] is the list read from
    [OUTPUT_FILE], [None] when the file does not exist. *)
Definition page (path_exists : string -> bool)
    (image_fails : string -> option string) (file : option (list book))
    (search_query : string) (sort_reverse : bool) : result (list widget) :=
  match file with
  | None =>
      Ret [StError ("Output file not found: " ++ OUTPUT_FILE
                    ++ ". Run processing first.")]
  | Some [] => Ret [StWarning "No books found in the output file."]
  | Some books =>
      match filter_books books search_query with
      | [] => Ret [StWarning "No books match the search query."]
      | books =>
          bind (sort_books books sort_reverse) (fun sorted_books =>
          Ret (StSubheader "Books (Sorted by Original Publication Date)"
               :: concat (map (show_book path_exists image_fails)
                            sorted_books)))
      end
  end.

(** A date field of the record is a text with the letter s and without a
    digit. *)
Definition has_bad_date (b : book) : Prop :=
  exists field : string,
    (field = "original_date" \/ field = "release_date") /\
    has_letter_s (get b field "") = true /\
    digits_of (get b field "") = [].

(** The record with its sort key in front, as [list.sort] decorates it;
    the key is only read on records whose dates normalise. *)
Definition decorate (b : book) : (Z * Z) * book :=
  (match sort_key b with Ret k => k | Raise _ => (0, 0) end, b).

(** A world for examples: two images are read, the model answers on
    both, one answer decodes to a dict. *)
Definition sample_world : Extractor.world string string :=
  {| Extractor.str_value := fun s => s;
     Extractor.read_base64 := fun _ => Some "AAAA";
     Extractor.prompt := "Analyze this book cover image";
     Extractor.invoke := fun _ _ _ _ => Extractor.Response "answer";
     Extractor.loads := fun _ => Extractor.Dict (dated "Dune" "1960s");
     Extractor.listdir :=
       fun _ => Some ["dune.JPG"; "notes.txt"; "cover.png"] |}.

(** * Properties *)

Arguments Str.char_eqb : simpl never.
Arguments Str.is_space : simpl never.
Arguments Str.is_digit : simpl never.
Arguments Str.lower_char : simpl never.
Arguments Str.digit_value : simpl never.
Arguments keep_char : simpl never.
Arguments parse_date : simpl never.
Arguments sort_key : simpl never.

(** ** Results *)

Lemma bind_Ret_inv {A B : Type} (r : result A) (k : A -> result B) (b : B) :
  bind r k = Ret b -> exists a, r = Ret a /\ k a = Ret b.
Proof. destruct r as [a|e]; simpl; [eauto | discriminate]. Qed.

Lemma map_result_Ret_length {A B : Type} (f : A -> result B) (l : list A)
    (ys : list B) :
  map_result f l = Ret ys -> length ys = length l.
Proof.
  revert ys; induction l as [|x l IH]; simpl; intros ys H.
  - injection H as <-. reflexivity.
  - apply bind_Ret_inv in H as (y & _ & H).
    apply bind_Ret_inv in H as (ys' & Hys & H).
    injection H as <-. simpl. f_equal. apply IH, Hys.
Qed.

Lemma map_result_Ret_Forall2 {A B : Type} (f : A -> result B) (l : list A)
    (ys : list B) :
  map_result f l = Ret ys <-> Forall2 (fun x y => f x = Ret y) l ys.
Proof.
  revert ys; induction l as [|x l IH]; simpl; intros ys.
  - split.
    + intros H. injection H as <-. constructor.
    + intros H. inversion H. reflexivity.
  - split.
    + intros H. apply bind_Ret_inv in H as (y & Hy & H).
      apply bind_Ret_inv in H as (ys' & Hys & H).
      injection H as <-. constructor; [exact Hy | apply IH, Hys].
    + intros H. inversion H as [|x' y l' ys' Hy Hys]; subst.
      rewrite Hy. simpl. apply IH in Hys. rewrite Hys. reflexivity.
Qed.


(** ** Characters *)

Ltac each_char c :=
  destruct c as [[] [] [] [] [] [] [] []]; vm_compute; try reflexivity;
  try discriminate.

Lemma keep_lower_not_space (c : ascii) :
  keep_char (Str.lower_char c) = true -> Str.is_space c = false.
Proof. each_char c. Qed.

Lemma is_space_lower_char (c : ascii) :
  Str.is_space (Str.lower_char c) = Str.is_space c.
Proof. each_char c. Qed.

Lemma keep_lower_digit_or_s (c : ascii) :
  keep_char (Str.lower_char c) =
  Str.is_digit c || (Str.char_eqb c "s"%char || Str.char_eqb c "S"%char).
Proof. each_char c. Qed.

Lemma lower_char_is_s (c : ascii) :
  Str.char_eqb (Str.lower_char c) "s"%char =
  Str.char_eqb c "s"%char || Str.char_eqb c "S"%char.
Proof. each_char c. Qed.

Lemma lower_char_digit (c : ascii) :
  Str.is_digit c = true -> Str.lower_char c = c.
Proof. each_char c. Qed.

Lemma digit_not_s (c : ascii) :
  Str.is_digit c = true ->
  Str.char_eqb c "s"%char || Str.char_eqb c "S"%char = false.
Proof. each_char c. Qed.

Lemma digit_value_range (c : ascii) :
  Str.is_digit c = true -> 0 <= Str.digit_value c <= 9.
Proof.
  destruct c as [[] [] [] [] [] [] [] []]; vm_compute; intros H;
    try discriminate H; split; discriminate.
Qed.

(** ** Strings: strip, lower and the cleaned token *)

Section FilterStrip.

Variable p : ascii -> bool.
Hypothesis p_not_space : forall c, p c = true -> Str.is_space c = false.

Lemma filter_lstrip (l : list ascii) :
  List.filter p (Str.lstrip l) = List.filter p l.
Proof using p_not_space.
  induction l as [|c l IH]; simpl; [reflexivity|].
  destruct (Str.is_space c) eqn:Hc; [|reflexivity].
  destruct (p c) eqn:Hp; [|exact IH].
  apply p_not_space in Hp. congruence.
Qed.

Lemma filter_strip (l : list ascii) :
  List.filter p (Str.strip l) = List.filter p l.
Proof using p_not_space.
  unfold Str.strip, Str.rstrip.
  rewrite List.filter_rev, filter_lstrip, <- List.filter_rev, rev_involutive.
  apply filter_lstrip.
Qed.

End FilterStrip.

Lemma filter_lower (p : ascii -> bool) (l : list ascii) :
  List.filter p (Str.lower l) =
  Str.lower (List.filter (fun c => p (Str.lower_char c)) l).
Proof.
  unfold Str.lower. induction l as [|c l IH]; simpl; [reflexivity|].
  destruct (p (Str.lower_char c)); simpl; rewrite IH; reflexivity.
Qed.

Lemma lower_lstrip (l : list ascii) :
  Str.lower (Str.lstrip l) = Str.lstrip (Str.lower l).
Proof.
  induction l as [|c l IH]; simpl; [reflexivity|].
  rewrite is_space_lower_char. destruct (Str.is_space c); [exact IH|reflexivity].
Qed.

Lemma lower_strip (l : list ascii) :
  Str.lower (Str.strip l) = Str.strip (Str.lower l).
Proof.
  unfold Str.strip, Str.rstrip, Str.lower.
  rewrite map_rev. fold (Str.lower (Str.lstrip (rev (Str.lstrip l)))).
  rewrite lower_lstrip. unfold Str.lower at 1. rewrite map_rev.
  fold (Str.lower (Str.lstrip l)). rewrite lower_lstrip. reflexivity.
Qed.

(** The cleaned token read off the raw text: strip and lower only matter
    through the characters that survive the cleaning. *)
Lemma token_of_raw (s : string) :
  token_of s =
  Str.lower (List.filter (fun c => keep_char (Str.lower_char c)) (Str.chars s)).
Proof.
  unfold token_of, clean. rewrite filter_lower. f_equal.
  apply filter_strip. exact keep_lower_not_space.
Qed.

Lemma contains_char (c : ascii) (l : list ascii) :
  Str.contains [c] l = existsb (fun x => Str.char_eqb c x) l.
Proof.
  induction l as [|x l IH]; simpl; [reflexivity|].
  rewrite IH, andb_true_r. reflexivity.
Qed.

Lemma token_has_s (s : string) :
  Str.contains (Str.chars "s") (token_of s) = has_letter_s s.
Proof.
  rewrite token_of_raw. unfold has_letter_s.
  change (Str.chars "s") with ["s"%char]. rewrite contains_char.
  induction (Str.chars s) as [|c l IH]; simpl; [reflexivity|].
  rewrite keep_lower_digit_or_s.
  destruct (Str.is_digit c) eqn:Hd; simpl.
  - rewrite (digit_not_s c Hd), (lower_char_digit c Hd). simpl.
    rewrite <- IH.
    pose proof (digit_not_s c Hd) as H. apply orb_false_iff in H as [H _].
    unfold Str.char_eqb in *. rewrite Ascii.eqb_sym, H. reflexivity.
  - destruct (Str.char_eqb c "s" || Str.char_eqb c "S") eqn:Hs; simpl.
    + pose proof (lower_char_is_s c) as H. rewrite Hs in H.
      unfold Str.char_eqb in *. rewrite Ascii.eqb_sym, H. reflexivity.
    + exact IH.
Qed.

Lemma token_digits (s : string) :
  Str.remove_char "s"%char (token_of s) = digits_of s.
Proof.
  rewrite token_of_raw. unfold digits_of, Str.remove_char.
  induction (Str.chars s) as [|c l IH]; simpl; [reflexivity|].
  rewrite keep_lower_digit_or_s.
  destruct (Str.is_digit c) eqn:Hd; simpl.
  - rewrite (lower_char_digit c Hd).
    pose proof (digit_not_s c Hd) as H. apply orb_false_iff in H as [H _].
    rewrite H. simpl. f_equal. exact IH.
  - destruct (Str.char_eqb c "s" || Str.char_eqb c "S") eqn:Hs; simpl.
    + rewrite lower_char_is_s, Hs. simpl. exact IH.
    + exact IH.
Qed.

(** ** Strings: substring test *)

Lemma starts_with_spec (sub l : list ascii) :
  Str.starts_with sub l = true <-> exists r, l = (sub ++ r)%list.
Proof.
  revert l; induction sub as [|a sub IH]; intros l; simpl.
  - split; [intros _; exists l; reflexivity | reflexivity].
  - destruct l as [|b l].
    + split; [discriminate | intros [r Hr]; discriminate Hr].
    + rewrite andb_true_iff, IH. unfold Str.char_eqb. rewrite Ascii.eqb_eq.
      split.
      * intros [-> [r ->]]. exists r. reflexivity.
      * intros [r Hr]. injection Hr as -> ->. eauto.
Qed.

Lemma contains_spec (sub l : list ascii) :
  Str.contains sub l = true <-> exists a r, l = (a ++ sub ++ r)%list.
Proof.
  induction l as [|x l IH]; simpl.
  - rewrite orb_false_r, starts_with_spec. split.
    + intros [r Hr]. exists [], r. exact Hr.
    + intros (a & r & H). destruct a; [|discriminate H]. eauto.
  - rewrite orb_true_iff, starts_with_spec, IH. split.
    + intros [[r Hr] | (a & r & ->)].
      * exists [], r. exact Hr.
      * exists (x :: a), r. reflexivity.
    + intros (a & r & H). destruct a as [|y a]; simpl in H.
      * left. eauto.
      * right. injection H as -> ->. eauto.
Qed.

Lemma contains_nil (l : list ascii) : Str.contains [] l = true.
Proof. destruct l; reflexivity. Qed.

Lemma contains_in_nil (sub : list ascii) :
  sub <> [] -> Str.contains sub [] = false.
Proof. destruct sub; [congruence | reflexivity]. Qed.

Lemma contains_rev (sub l : list ascii) :
  Str.contains (rev sub) (rev l) = Str.contains sub l.
Proof.
  apply eq_true_iff_eq. rewrite !contains_spec. split.
  - intros (a & r & H). exists (rev r), (rev a).
    apply (f_equal (@rev ascii)) in H.
    rewrite rev_involutive, !rev_app_distr, rev_involutive in H.
    rewrite H, app_assoc. reflexivity.
  - intros (a & r & ->). exists (rev r), (rev a).
    rewrite !rev_app_distr, app_assoc. reflexivity.
Qed.

Lemma contains_lstrip (c : ascii) (sub l : list ascii) :
  Str.is_space c = false ->
  Str.contains (c :: sub) (Str.lstrip l) = Str.contains (c :: sub) l.
Proof.
  intros Hc. induction l as [|x l IH]; [reflexivity|].
  cbn [Str.lstrip]. destruct (Str.is_space x) eqn:Hx; [|reflexivity].
  rewrite IH. cbn [Str.contains Str.starts_with].
  assert (Str.char_eqb c x = false) as ->; [|reflexivity].
  unfold Str.char_eqb. apply Ascii.eqb_neq. congruence.
Qed.

(** A text that begins and ends with a character that is not white space
    occurs in a stripped string exactly when it occurs in the string. *)
Lemma contains_strip (c c' : ascii) (sub sub' l : list ascii) :
  Str.is_space c = false -> Str.is_space c' = false ->
  rev (c :: sub) = c' :: sub' ->
  Str.contains (c :: sub) (Str.strip l) = Str.contains (c :: sub) l.
Proof.
  intros Hc Hc' Hrev. unfold Str.strip, Str.rstrip.
  rewrite <- (rev_involutive (c :: sub)) at 1.
  rewrite contains_rev, Hrev, contains_lstrip by exact Hc'.
  rewrite <- Hrev, contains_rev. apply contains_lstrip, Hc.
Qed.

Lemma contains_lower_spec (sub l : list ascii) :
  Str.contains sub (Str.lower l) = true <->
  exists a m r, l = (a ++ m ++ r)%list /\ Str.lower m = sub.
Proof.
  rewrite contains_spec. unfold Str.lower. split.
  - intros (a & r & H).
    apply map_eq_app in H as (a' & mr & -> & _ & H).
    apply map_eq_app in H as (m & r' & -> & Hm & _). eauto.
  - intros (a & m & r & -> & <-).
    exists (map Str.lower_char a), (map Str.lower_char r).
    rewrite !map_app. reflexivity.
Qed.

(** The era marker is set exactly by an occurrence of "bc" or of "b.c.",
    in any case of the letters. *)
Lemma bc_marker_spec (s : string) :
  bc_marker s = true <-> occurs_nocase "bc" s \/ occurs_nocase "b.c." s.
Proof.
  unfold bc_marker, is_bc, occurs_nocase. rewrite lower_strip.
  change (Str.chars "bc") with ["b"; "c"]%char.
  change (Str.chars "b.c.") with ["b"; "."; "c"; "."]%char.
  rewrite (contains_strip "b" "c" ["c"] ["b"])%char by reflexivity.
  rewrite (contains_strip "b" "." ["."; "c"; "."] ["c"; "."; "b"])%char
    by reflexivity.
  rewrite orb_true_iff, !contains_lower_spec. reflexivity.
Qed.

(** ** int on digit strings *)

Lemma forallb_filter_self {A : Type} (p : A -> bool) (l : list A) :
  forallb p (List.filter p l) = true.
Proof.
  induction l as [|x l IH]; simpl; [reflexivity|].
  destruct (p x) eqn:Hp; simpl; [rewrite Hp|]; exact IH.
Qed.

Lemma forallb_take {A : Type} (p : A -> bool) (n : nat) (l : list A) :
  forallb p l = true -> forallb p (take n l) = true.
Proof.
  revert n; induction l as [|x l IH]; intros [|n]; simpl; try reflexivity.
  rewrite !andb_true_iff. intros [Hx Hl]. auto.
Qed.

Lemma int_digits (l : list ascii) :
  l <> [] -> forallb Str.is_digit l = true -> Str.int l = Ret (Str.decimal l).
Proof.
  intros Hne Hd. unfold Str.int. destruct l; [congruence|].
  rewrite Hd. reflexivity.
Qed.

Lemma decimal_acc_nonneg (l : list ascii) (acc : Z) :
  forallb Str.is_digit l = true -> 0 <= acc ->
  0 <= fold_left (fun acc c => 10 * acc + Str.digit_value c) l acc.
Proof.
  revert acc; induction l as [|c l IH]; simpl; intros acc Hd Hacc.
  - exact Hacc.
  - apply andb_true_iff in Hd as [Hc Hl].
    apply IH; [exact Hl|]. pose proof (digit_value_range c Hc). lia.
Qed.

Lemma decimal_nonneg (l : list ascii) :
  forallb Str.is_digit l = true -> 0 <= Str.decimal l.
Proof. intros Hd. apply decimal_acc_nonneg; [exact Hd | lia]. Qed.

Lemma remove_char_absent (c : ascii) (l : list ascii) :
  existsb (fun x => Str.char_eqb c x) l = false -> Str.remove_char c l = l.
Proof.
  unfold Str.remove_char. induction l as [|x l IH]; simpl; [reflexivity|].
  rewrite orb_false_iff. intros [Hx Hl].
  unfold Str.char_eqb in *. rewrite Ascii.eqb_sym, Hx. simpl.
  f_equal. apply IH, Hl.
Qed.

Lemma digits_of_all_digits (s : string) :
  forallb Str.is_digit (digits_of s) = true.
Proof. apply forallb_filter_self. Qed.

(** ** parse_date on the raw text *)

Lemma parse_date_year (s : string) :
  parse_date (Some s) =
  rmap (apply_era (bc_marker s)) (year_of_token (token_of s)).
Proof.
  destruct s as [|a s]; [reflexivity|].
  unfold parse_date, year_of_token.
  fold (bc_marker (String a s)). fold (token_of (String a s)).
  destruct (Str.contains (Str.chars "s") (token_of (String a s))).
  - destruct (Str.int _); reflexivity.
  - destruct (Str.int _) as [year|[]]; [reflexivity|].
    destruct (bc_marker _); reflexivity.
Qed.

Lemma year_of_token_raw (s : string) :
  year_of_token (token_of s) =
  if has_letter_s s then
    match digits_of s with
    | [] => Raise ValueError
    | _ :: _ => Ret (Str.decimal (take 4 (digits_of s)) + 5)
    end
  else Ret (Str.decimal (digits_of s)).
Proof.
  unfold year_of_token. rewrite token_has_s.
  destruct (has_letter_s s) eqn:Hs.
  - rewrite token_digits. pose proof (digits_of_all_digits s) as Hd.
    destruct (digits_of s) as [|c l] eqn:E; [reflexivity|].
    rewrite int_digits; [reflexivity | discriminate |].
    apply forallb_take, Hd.
  - assert (token_of s = digits_of s) as ->.
    { rewrite <- token_digits. symmetry. apply remove_char_absent.
      rewrite <- contains_char.
      pose proof (token_has_s s) as H. rewrite Hs in H. exact H. }
    pose proof (digits_of_all_digits s) as Hd.
    destruct (digits_of s) as [|c l] eqn:E; [reflexivity|].
    rewrite int_digits; [reflexivity | discriminate | exact Hd].
Qed.

(** What [parse_date] does, told from the raw text: a text with the letter
    s is a decade and fails when it has no digit; any other text is the
    number its digits spell, 0 when there is none. *)
Lemma parse_date_raw (s : string) :
  parse_date (Some s) =
  if has_letter_s s then
    match digits_of s with
    | [] => Raise ValueError
    | _ :: _ =>
        Ret (apply_era (bc_marker s) (Str.decimal (take 4 (digits_of s)) + 5))
    end
  else Ret (apply_era (bc_marker s) (Str.decimal (digits_of s))).
Proof.
  rewrite parse_date_year, year_of_token_raw.
  destruct (has_letter_s s); [|reflexivity].
  destruct (digits_of s); reflexivity.
Qed.

Lemma parse_date_raises (d : option string) (e : exn) :
  parse_date d = Raise e <->
  exists s, d = Some s /\ has_letter_s s = true /\ digits_of s = [].
Proof.
  destruct d as [s|].
  - rewrite parse_date_raw. split.
    + intros H. exists s. destruct (has_letter_s s); [|discriminate H].
      destruct (digits_of s); [auto | discriminate H].
    + intros (s' & [= <-] & -> & ->). destruct e. reflexivity.
  - split; [discriminate | intros (s & H & _); discriminate H].
Qed.

Lemma year_of_token_nonneg (s : string) (y : Z) :
  year_of_token (token_of s) = Ret y -> 0 <= y.
Proof.
  rewrite year_of_token_raw. pose proof (digits_of_all_digits s) as Hd.
  destruct (has_letter_s s).
  - destruct (digits_of s) as [|c l] eqn:E; [discriminate|].
    intros [= <-]. pose proof (decimal_nonneg (take 4 (c :: l))) as H.
    specialize (H (forallb_take _ 4%nat _ Hd)). cbn [take] in H. lia.
  - intros [= <-]. apply decimal_nonneg, Hd.
Qed.

(** C1.  [parse_date] is not total: on a text with the letter s and no
    digit the decade branch calls [int] on the empty string, outside any
    [try], and the [ValueError] propagates instead of the sentinel 0. *)
Theorem parse_date_raises_on_text_with_s :
  parse_date (Some "Not specified") = Raise ValueError.
Proof. reflexivity. Qed.

(** C2, as the specification words it, fails: the digits that follow the s
    count as well.  "3 Sept 1963" cleans to the token "3s1963"; the digits
    before the s give 3 + 5 = 8, [parse_date] returns 3196 + 5. *)
Lemma decade_digits_after_s_count :
  Str.contains (Str.chars "s") (token_of "3 Sept 1963") = true /\
  parse_date (Some "3 Sept 1963") = Ret 3201 /\
  apply_era (bc_marker "3 Sept 1963")
    (spec_decade_year (token_of "3 Sept 1963")) = 8 /\
  parse_date (Some "3 Sept 1963") <>
  Ret (apply_era (bc_marker "3 Sept 1963")
         (spec_decade_year (token_of "3 Sept 1963"))).
Proof. repeat split; try reflexivity. discriminate. Qed.

(** C2, amended.  For every text whose cleaned token holds an s and at
    least one digit, [parse_date] takes at most the first four digits of
    the text, wherever they stand relative to the s, adds 5 to their value
    and applies the era sign afterwards; "1960s" gives 1965 and "300s BC"
    gives -305. *)
Theorem parse_date_decade :
  (forall s : string,
      Str.contains (Str.chars "s") (token_of s) = true ->
      digits_of s <> [] ->
      parse_date (Some s) =
      Ret (apply_era (bc_marker s)
             (Str.decimal (take 4 (digits_of s)) + 5))) /\
  parse_date (Some "1960s") = Ret 1965 /\
  parse_date (Some "300s BC") = Ret (-305).
Proof.
  split; [|split; reflexivity].
  intros s Hs Hd. rewrite token_has_s in Hs.
  rewrite parse_date_raw, Hs. destruct (digits_of s); [congruence|reflexivity].
Qed.

Lemma parse_date_decade_witness :
  Str.contains (Str.chars "s") (token_of "c. 1380s B.C.") = true /\
  digits_of "c. 1380s B.C." <> [] /\
  parse_date (Some "c. 1380s B.C.") = Ret (-1385).
Proof.
  split; [reflexivity|]. split; [discriminate|].
  apply (proj1 parse_date_decade "c. 1380s B.C."); [reflexivity|discriminate].
Defined.

(** C3, as the specification words it, fails: "B.C" is "bc" in capitals
    with a period inside, yet [parse_date] tests for the two spellings
    "bc" and "b.c." only and returns the year unsigned. *)
Lemma bc_with_inner_period_is_unsigned :
  spec_bc_marker "80 B.C" = true /\
  parse_date (Some "80 B.C") = Ret 80 /\
  parse_date (Some "80 B.C") <> Ret (-80).
Proof. repeat split; try reflexivity. discriminate. Qed.

(** C3, amended.  [parse_date] treats a text as BC exactly when "bc" or
    "b.c." occurs in it, in any case of the letters; the result is then
    the negated derived year, and the derived year itself otherwise; the
    derived year is never negative; "80 BC" gives -80 and "1963" gives
    1963. *)
Theorem parse_date_era (s : string) :
  (bc_marker s = true <-> occurs_nocase "bc" s \/ occurs_nocase "b.c." s) /\
  parse_date (Some s) =
    rmap (fun year => if bc_marker s then - year else year)
      (year_of_token (token_of s)) /\
  (forall year, year_of_token (token_of s) = Ret year -> 0 <= year) /\
  parse_date (Some "80 BC") = Ret (-80) /\
  parse_date (Some "1963") = Ret 1963.
Proof.
  split; [apply bc_marker_spec|]. split; [apply parse_date_year|].
  split; [apply year_of_token_nonneg|]. split; reflexivity.
Qed.

Lemma parse_date_era_witness :
  bc_marker "44 b.c." = true /\
  year_of_token (token_of "44 b.c.") = Ret 44 /\
  parse_date (Some "44 b.c.") = Ret (- 44).
Proof.
  split; [reflexivity|]. split; [reflexivity|].
  rewrite (proj1 (proj2 (parse_date_era "44 b.c."))). reflexivity.
Defined.

(** C9.  The empty and the absent text give 0 and "circa 1200" gives 1200,
    but a text that keeps no digit does not always give 0: when it holds
    the letter s, as "various" does, [parse_date] raises.  This is the
    defect of C1. *)
Theorem parse_date_no_digit_left :
  parse_date None = Ret 0 /\
  parse_date (Some "") = Ret 0 /\
  parse_date (Some "circa 1200") = Ret 1200 /\
  digits_of "various" = [] /\
  parse_date (Some "various") = Raise ValueError.
Proof. repeat split. Qed.

(** ** Lists: filters and sorted lists *)

Lemma filter_eq_app_inv {A : Type} (q : A -> bool) (l u v : list A) :
  List.filter q l = (u ++ v)%list ->
  exists l1 l2,
    l = (l1 ++ l2)%list /\ List.filter q l1 = u /\ List.filter q l2 = v.
Proof.
  revert u; induction l as [|x l IH]; simpl; intros u H.
  - symmetry in H. apply app_eq_nil in H as [-> ->]. exists [], []. auto.
  - destruct (q x) eqn:Hq.
    + destruct u as [|y u]; simpl in H.
      * exists [], (x :: l). simpl. rewrite Hq. auto.
      * injection H as <- H. apply IH in H as (l1 & l2 & -> & <- & <-).
        exists (x :: l1), l2. simpl. rewrite Hq. auto.
    + apply IH in H as (l1 & l2 & -> & <- & <-).
      exists (x :: l1), l2. simpl. rewrite Hq. auto.
Qed.

Lemma filter_eq_cons_inv {A : Type} (q : A -> bool) (l v : list A) (x : A) :
  List.filter q l = x :: v ->
  exists l1 l2, l = (l1 ++ x :: l2)%list /\ List.filter q l2 = v.
Proof.
  induction l as [|y l IH]; simpl; intros H; [discriminate|].
  destruct (q y) eqn:Hq.
  - injection H as -> <-. exists [], l. auto.
  - apply IH in H as (l1 & l2 & -> & <-). exists (y :: l1), l2. auto.
Qed.

(** Two elements met in this order in the filtered list stand in this
    order in the list. *)
Lemma filter_order {A : Type} (q : A -> bool) (l u v w : list A) (x y : A) :
  List.filter q l = (u ++ x :: v ++ y :: w)%list ->
  exists l1 l2 l3, l = (l1 ++ x :: l2 ++ y :: l3)%list.
Proof.
  intros H. apply filter_eq_app_inv in H as (l1 & l' & -> & _ & H).
  apply filter_eq_cons_inv in H as (l1' & l'' & -> & H).
  apply filter_eq_app_inv in H as (l2 & l''' & -> & _ & H).
  apply filter_eq_cons_inv in H as (l2' & l3 & -> & _).
  exists (l1 ++ l1')%list, (l2 ++ l2')%list, l3.
  repeat (rewrite <- ?app_assoc; simpl). reflexivity.
Qed.




(** ** list.sort *)

Section ListSortFacts.

Context {K A : Type} (lt : K -> K -> bool).

Hypothesis lt_asym : forall a b, lt a b = true -> lt b a = false.
Hypothesis lt_ntrans :
  forall a b c, lt a b = false -> lt b c = false -> lt a c = false.
Hypothesis lt_total : forall a b, lt a b = false -> lt b a = false -> a = b.

Let le (a b : K * A) : Prop := lt b.1 a.1 = false.

Lemma insert_sorted_perm (x : K * A) (l : list (K * A)) :
  Permutation (insert_sorted lt x l) (x :: l).
Proof.
  induction l as [|y l IH]; simpl; [reflexivity|].
  destruct (lt y.1 x.1); [|reflexivity].
  rewrite IH. apply perm_swap.
Qed.

Lemma stable_sort_perm (l : list (K * A)) :
  Permutation (stable_sort lt l) l.
Proof.
  induction l as [|x l IH]; simpl; [reflexivity|].
  rewrite insert_sorted_perm. constructor. exact IH.
Qed.

Lemma sort_decorated_perm (reverse : bool) (d : list (K * A)) :
  Permutation (sort_decorated lt reverse d) d.
Proof.
  unfold sort_decorated. destruct reverse.
  - rewrite <- Permutation_rev, stable_sort_perm, <- Permutation_rev.
    reflexivity.
  - apply stable_sort_perm.
Qed.

Lemma insert_sorted_sorted (x : K * A) (l : list (K * A)) :
  StronglySorted le l -> StronglySorted le (insert_sorted lt x l).
Proof using lt_asym lt_ntrans.
  induction 1 as [|y l Hl IH Hy]; simpl; [repeat constructor|].
  destruct (lt y.1 x.1) eqn:Hyx.
  - constructor; [exact IH|].
    eapply Permutation_Forall;
      [symmetry; apply insert_sorted_perm|].
    constructor; [|exact Hy]. unfold le. apply lt_asym, Hyx.
  - constructor; [constructor; assumption|].
    constructor; [exact Hyx|].
    eapply Forall_impl; [exact Hy|]. unfold le. intros z Hz.
    eapply lt_ntrans; eassumption.
Qed.

Lemma stable_sort_sorted (l : list (K * A)) :
  StronglySorted le (stable_sort lt l).
Proof using lt_asym lt_ntrans.
  induction l as [|x l IH]; simpl; [constructor|].
  apply insert_sorted_sorted, IH.
Qed.


(** Stability: keys no two of which are ordered keep their elements in
    input order. *)
Section Stable.

Variable q : K -> bool.
Hypothesis q_unordered : forall a b, q a = true -> q b = true -> lt a b = false.





End Stable.

(** A list sorted without ties is the only sorted arrangement of its
    elements. *)
Lemma sorted_perm_unique (l1 l2 : list (K * A)) :
  StronglySorted le l1 -> StronglySorted le l2 -> Permutation l1 l2 ->
  NoDup (map fst l1) -> l1 = l2.
Proof using lt_total.
  intros H1; revert l2; induction H1 as [|x l1 Hl1 IH Hx]; intros l2 H2 Hp Hnd.
  - apply Permutation_nil in Hp. congruence.
  - destruct H2 as [|y l2 Hl2 Hy].
    + symmetry in Hp. apply Permutation_nil in Hp. discriminate.
    + assert (x = y) as <-.
      { assert (In x (y :: l2)) as Hin
          by (eapply Permutation_in; [exact Hp | left; reflexivity]).
        destruct Hin as [Hin|Hin]; [congruence|].
        assert (In y (x :: l1)) as Hin'
          by (eapply Permutation_in;
              [symmetry; exact Hp | left; reflexivity]).
        destruct Hin' as [Hin'|Hin']; [congruence|].
        rewrite Forall_forall in Hx, Hy.
        apply list_elem_of_In in Hin, Hin'.
        specialize (Hx _ Hin'). specialize (Hy _ Hin). unfold le in Hx, Hy.
        pose proof (lt_total _ _ Hx Hy) as Heq.
        apply NoDup_cons_1_1 in Hnd. exfalso. apply Hnd.
        rewrite <- Heq. apply list_elem_of_In, in_map, list_elem_of_In, Hin'. }
      f_equal. apply IH; [exact Hl2 | | ].
      * eapply Permutation_cons_inv, Hp.
      * simpl in Hnd. apply NoDup_cons_1_2 in Hnd. exact Hnd.
Qed.


End ListSortFacts.


Lemma map_result_decorated {K A : Type} (key : A -> result K)
    (d : list (K * A)) :
  Forall (fun p => key p.2 = Ret p.1) d ->
  map_result key (map snd d) = Ret (map fst d).
Proof.
  induction 1 as [|p d Hp _ IH]; simpl; [reflexivity|].
  rewrite Hp, IH. reflexivity.
Qed.


(** ** The order of the sort keys *)

Lemma key_lt_spec (a b : Z * Z) :
  key_lt a b = true <-> a.1 < b.1 \/ (a.1 = b.1 /\ a.2 < b.2).
Proof.
  unfold key_lt.
  destruct (Z.eqb_spec a.1 b.1), (Z.eqb_spec a.2 b.2); simpl;
    rewrite ?Z.ltb_lt; lia.
Qed.

Lemma key_lt_false (a b : Z * Z) : key_lt b a = false <-> lex_le a b.
Proof.
  unfold lex_le. rewrite <- not_true_iff_false, key_lt_spec. lia.
Qed.

Lemma key_lt_irrefl (a : Z * Z) : key_lt a a = false.
Proof. apply key_lt_false. unfold lex_le. lia. Qed.

Lemma key_lt_asym (a b : Z * Z) : key_lt a b = true -> key_lt b a = false.
Proof. rewrite key_lt_spec, key_lt_false. unfold lex_le. lia. Qed.

Lemma key_lt_ntrans (a b c : Z * Z) :
  key_lt a b = false -> key_lt b c = false -> key_lt a c = false.
Proof. rewrite !key_lt_false. unfold lex_le. lia. Qed.

Lemma key_lt_total (a b : Z * Z) :
  key_lt a b = false -> key_lt b a = false -> a = b.
Proof.
  rewrite !key_lt_false. unfold lex_le. destruct a, b; simpl.
  intros H1 H2. f_equal; lia.
Qed.

(** ** sort_books *)

Lemma sort_key_Ret (b : book) (k : Z * Z) :
  sort_key b = Ret k <->
  parse_date (Some (get b "original_date" "")) = Ret k.1 /\
  parse_date (Some (get b "release_date" "")) = Ret k.2.
Proof.
  unfold sort_key. destruct k as [o r]. cbn [fst snd].
  destruct (parse_date (Some (get b "original_date" ""))) as [o'|e];
    cbn [bind].
  - destruct (parse_date (Some (get b "release_date" ""))) as [r'|e];
      cbn [bind].
    + split.
      * intros H. inversion H; subst. auto.
      * intros [H1 H2]. inversion H1; inversion H2; subst. reflexivity.
    + split; [discriminate | intros [_ H]; discriminate H].
  - split; [discriminate | intros [H _]; discriminate H].
Qed.

Lemma dates_normalise_key (b : book) :
  dates_normalise b <-> exists k, sort_key b = Ret k.
Proof.
  unfold dates_normalise. split.
  - intros [[o Ho] [r Hr]]. exists (o, r). apply sort_key_Ret. auto.
  - intros [k Hk]. apply sort_key_Ret in Hk as [Ho Hr]. eauto.
Qed.


Lemma sort_books_Ret (books : list book) (reverse : bool) (keys : list (Z * Z)) :
  map_result sort_key books = Ret keys ->
  sort_books books reverse =
  Ret (map snd (sort_decorated key_lt reverse (combine keys books))).
Proof. intros H. unfold sort_books, sorted, list_sort. rewrite H. reflexivity. Qed.

(** [sort_books] fails exactly when a date field of some record does not
    normalise. *)
Lemma sort_books_raises (books : list book) (reverse : bool) :
  (exists e, sort_books books reverse = Raise e) <->
  Exists (fun b => ~ dates_normalise b) books.
Proof.
  unfold sort_books, sorted, list_sort.
  induction books as [|b books IH]; simpl.
  - split; [intros [e H]; discriminate H | intros H; inversion H].
  - destruct (sort_key b) as [k|e] eqn:Hk; simpl.
    + destruct (map_result sort_key books) as [ks|e] eqn:Hks; simpl in *.
      * split; [intros [e H]; discriminate H|].
        intros H. inversion H as [? ? Hb|? ? Hbs]; subst.
        -- exfalso. apply Hb, dates_normalise_key. eauto.
        -- apply IH in Hbs as [e He]. discriminate He.
      * split; [|eauto]. intros _. apply Exists_cons_tl, IH. eauto.
    + split; [|eauto]. intros _. apply Exists_cons_hd.
      rewrite dates_normalise_key. intros [k Hk']. congruence.
Qed.












(** The end-to-end example: -80, 0, 1963, 1965. *)
Example sort_books_shelf :
  rmap (map (fun b => get b "original_date" "")) (sort_books shelf false) =
  Ret ["80 BC"; ""; "1963"; "1960s"].
Proof. vm_compute. reflexivity. Qed.





(** With a tie the descending result is not the reverse of the ascending
    one: the tied records keep their input order in both. *)
Example sort_books_descending_tie :
  sort_books [hobbit; first_printing; second_printing] true =
    Ret [hobbit; first_printing; second_printing] /\
  sort_books [hobbit; first_printing; second_printing] false =
    Ret [first_printing; second_printing; hobbit].
Proof. split; vm_compute; reflexivity. Qed.

Example sort_books_descending_no_tie :
  rmap (map (fun b => get b "original_date" "")) (sort_books shelf true) =
  Ret ["1960s"; "1963"; ""; "80 BC"].
Proof. vm_compute. reflexivity. Qed.

(** ** sort_books on list objects *)

Lemma store_alloc_read (h : Store.store) (v : list book) (r : nat) :
  Store.read (Store.alloc h v).1 r =
  if Nat.eqb r (Store.next h) then v else Store.read h r.
Proof. reflexivity. Qed.






(** ** The search filter *)

Lemma chars_nil (s : string) : Str.chars s = [] <-> s = "".
Proof. destruct s; simpl; split; congruence. Qed.

Lemma lower_nil (l : list ascii) : Str.lower l = [] <-> l = [].
Proof. destruct l; simpl; split; congruence. Qed.

Lemma filter_all {A : Type} (p : A -> bool) (l : list A) :
  (forall x, p x = true) -> List.filter p l = l.
Proof.
  intros Hp. induction l as [|x l IH]; simpl; [reflexivity|].
  rewrite Hp, IH. reflexivity.
Qed.

Lemma filter_sublist {A : Type} (p : A -> bool) (l : list A) :
  sublist (List.filter p l) l.
Proof.
  induction l as [|x l IH]; simpl; [constructor|].
  destruct (p x); constructor; exact IH.
Qed.

Lemma filter_books_filter (books : list book) (search_query : string) :
  filter_books books search_query =
  List.filter (matches (Str.lower (Str.chars search_query))) books.
Proof.
  destruct search_query as [|c s]; [|reflexivity].
  cbn [filter_books]. symmetry. apply filter_all.
  intros b. unfold matches. rewrite contains_nil. reflexivity.
Qed.

Lemma missing_field_no_match (search_query : string) (b : book)
    (field : string) :
  search_query <> "" -> b !! field = None ->
  Str.contains (Str.lower (Str.chars search_query))
    (Str.lower (Str.chars (default "" (b !! field)))) = false.
Proof.
  intros Hq ->. apply contains_in_nil.
  rewrite lower_nil, chars_nil. exact Hq.
Qed.

(** C7.  The filter returns exactly the records whose lowercased title or
    lowercased author holds the lowercased query as a substring; a missing
    title or author is read as the empty text and does not match a query
    that is not empty; the empty query returns the list as it is. *)
Theorem filter_books_spec (books : list book) (search_query : string) :
  filter_books books search_query =
    List.filter
      (fun b =>
         Str.contains (Str.lower (Str.chars search_query))
           (Str.lower (Str.chars (default "" (b !! "title"))))
         || Str.contains (Str.lower (Str.chars search_query))
              (Str.lower (Str.chars (default "" (b !! "author")))))
      books /\
  (forall b : book,
      In b (filter_books books search_query) <->
      In b books /\
      (Str.contains (Str.lower (Str.chars search_query))
         (Str.lower (Str.chars (default "" (b !! "title")))) = true \/
       Str.contains (Str.lower (Str.chars search_query))
         (Str.lower (Str.chars (default "" (b !! "author")))) = true)) /\
  (forall (b : book) (field : string),
      search_query <> "" -> b !! field = None ->
      Str.contains (Str.lower (Str.chars search_query))
        (Str.lower (Str.chars (default "" (b !! field)))) = false) /\
  (forall b : book,
      search_query <> "" -> b !! "title" = None -> b !! "author" = None ->
      ~ In b (filter_books books search_query)) /\
  filter_books books "" = books.
Proof.
  split; [apply filter_books_filter|]. split; [|split; [|split]].
  - intros b. rewrite filter_books_filter, List.filter_In.
    unfold matches, get. rewrite orb_true_iff. reflexivity.
  - intros b field. apply missing_field_no_match.
  - intros b Hq Ht Ha. rewrite filter_books_filter, List.filter_In.
    unfold matches, get.
    rewrite (missing_field_no_match _ _ _ Hq Ht),
      (missing_field_no_match _ _ _ Hq Ha).
    intros [_ H]. discriminate H.
  - reflexivity.
Qed.

Lemma filter_books_spec_witness :
  filter_books [first_printing; hobbit; make_book []] "tolkien" = [hobbit] /\
  ~ In (make_book []) (filter_books [first_printing; hobbit; make_book []]
                         "tolkien").
Proof.
  split; [vm_compute; reflexivity|].
  apply (proj1 (proj2 (proj2 (proj2
           (filter_books_spec [first_printing; hobbit; make_book []]
              "tolkien"))))); [discriminate | reflexivity | reflexivity].
Defined.

(** C10.  For a query that is not empty the filter keeps the records that
    match in the order of the input: its result is the subsequence of the
    matching records, and two records met in some order in the result
    stand in that order in the input. *)
Theorem filter_books_keeps_order (books : list book) (search_query : string) :
  search_query <> "" ->
  filter_books books search_query =
    List.filter (matches (Str.lower (Str.chars search_query))) books /\
  sublist (filter_books books search_query) books /\
  forall (m1 m2 m3 : list book) (A B : book),
    filter_books books search_query = (m1 ++ A :: m2 ++ B :: m3)%list ->
    exists l1 l2 l3, books = (l1 ++ A :: l2 ++ B :: l3)%list.
Proof.
  intros _. split; [apply filter_books_filter|]. split.
  - rewrite filter_books_filter. apply filter_sublist.
  - intros m1 m2 m3 A B H. rewrite filter_books_filter in H.
    eapply filter_order, H.
Qed.

Lemma filter_books_keeps_order_witness :
  "JOYCE" <> "" /\
  filter_books [first_printing; hobbit; second_printing] "JOYCE" =
    [first_printing; second_printing] /\
  sublist (filter_books [first_printing; hobbit; second_printing] "JOYCE")
    [first_printing; hobbit; second_printing].
Proof.
  split; [discriminate|]. split; [vm_compute; reflexivity|].
  apply (filter_books_keeps_order [first_printing; hobbit; second_printing]
           "JOYCE"). discriminate.
Defined.

(** * Further properties of the code *)

(** ** parse_date *)


Lemma decimal_acc_upper (l : list ascii) (acc : Z) :
  forallb Str.is_digit l = true -> 0 <= acc ->
  fold_left (fun acc c => 10 * acc + Str.digit_value c) l acc
  < (acc + 1) * 10 ^ Z.of_nat (length l).
Proof.
  revert acc; induction l as [|c l IH]; intros acc Hd Hacc.
  - simpl. lia.
  - cbn [fold_left length]. apply andb_true_iff in Hd as [Hc Hl].
    pose proof (digit_value_range c Hc) as Hv.
    specialize (IH (10 * acc + Str.digit_value c) Hl ltac:(lia)).
    rewrite Nat2Z.inj_succ, Z.pow_succ_r by lia.
    assert (0 < 10 ^ Z.of_nat (length l)) by (apply Z.pow_pos_nonneg; lia).
    nia.
Qed.

Lemma decimal_take_4 (l : list ascii) :
  forallb Str.is_digit l = true -> 0 <= Str.decimal (take 4 l) <= 9999.
Proof.
  intros Hd. pose proof (forallb_take _ 4%nat _ Hd) as Hd4.
  split; [apply decimal_nonneg, Hd4|].
  pose proof (decimal_acc_upper (take 4 l) 0 Hd4 ltac:(lia)) as H.
  fold (Str.decimal (take 4 l)) in H.
  assert (10 ^ Z.of_nat (length (take 4 l)) <= 10 ^ 4) as Hp.
  { apply Z.pow_le_mono_r; [lia|]. rewrite length_take. lia. }
  change (10 ^ 4) with 10000 in Hp. lia.
Qed.

(** X1.  [parse_date] returns an integer on the absent text and on every
    text that holds a digit or holds no letter s; on the other texts, and
    only on them, it raises, and the exception is [ValueError]. *)
Theorem parse_date_returns_iff (s : string) :
  ((exists y, parse_date (Some s) = Ret y) <->
   has_letter_s s = false \/ digits_of s <> []) /\
  (parse_date (Some s) = Raise ValueError <->
   has_letter_s s = true /\ digits_of s = []) /\
  parse_date None = Ret 0.
Proof.
  rewrite parse_date_raw. split; [|split; [|reflexivity]].
  - destruct (has_letter_s s); [|split; eauto].
    destruct (digits_of s) as [|c l].
    + split; [intros [y H]; discriminate H | intros [H|H]; congruence].
    + split; [intros _; right; discriminate | eauto].
  - destruct (has_letter_s s); [|split; [discriminate | intros [H _]; discriminate H]].
    destruct (digits_of s) as [|c l]; [split; auto|].
    split; [discriminate | intros [_ H]; discriminate H].
Qed.

(** X2.  [parse_date] does not look at the case of the letters: two
    texts with the same lowercase form give the same result. *)
Theorem parse_date_ignores_case (s s' : string) :
  Str.lower (Str.chars s) = Str.lower (Str.chars s') ->
  parse_date (Some s) = parse_date (Some s').
Proof.
  intros H. rewrite !parse_date_year. unfold bc_marker, token_of.
  rewrite !lower_strip, H. reflexivity.
Qed.

Lemma parse_date_ignores_case_witness :
  Str.lower (Str.chars "Circa 300S b.C.") =
    Str.lower (Str.chars "CIRCA 300s B.c.") /\
  parse_date (Some "Circa 300S b.C.") = parse_date (Some "CIRCA 300s B.c.").
Proof.
  split; [reflexivity|].
  apply (parse_date_ignores_case "Circa 300S b.C." "CIRCA 300s B.c.").
  reflexivity.
Defined.

(** X3.  A text with the letter s is read as a decade of at most four
    digits: when [parse_date] returns on it, the result is between 5 and
    10004 in absolute value, so it is never the sentinel 0, and digits past
    the fourth are dropped. *)
Theorem parse_date_decade_range (s : string) (y : Z) :
  has_letter_s s = true -> parse_date (Some s) = Ret y ->
  5 <= Z.abs y <= 10004.
Proof.
  intros Hs. rewrite parse_date_raw, Hs.
  pose proof (decimal_take_4 _ (digits_of_all_digits s)) as Hd.
  destruct (digits_of s) as [|c l] eqn:E; [discriminate|].
  rewrite <- E in *. intros [= <-]. unfold apply_era.
  destruct (bc_marker s); lia.
Qed.

Lemma parse_date_decade_range_witness :
  has_letter_s "12345s" = true /\ parse_date (Some "12345s") = Ret 1239 /\
  5 <= Z.abs 1239 <= 10004.
Proof.
  split; [reflexivity|]. split; [reflexivity|].
  apply (parse_date_decade_range "12345s" 1239); reflexivity.
Defined.

(** X4.  [parse_date] reads a text only through its digits, through
    whether it holds the letter s, and through the era marker: two texts
    that agree on the three give the same result, whatever else they
    hold. *)
Theorem parse_date_reads_only (s s' : string) :
  digits_of s = digits_of s' -> has_letter_s s = has_letter_s s' ->
  bc_marker s = bc_marker s' ->
  parse_date (Some s) = parse_date (Some s').
Proof. intros Hd Hs Hb. rewrite !parse_date_raw, Hd, Hs, Hb. reflexivity. Qed.

Lemma parse_date_reads_only_witness :
  digits_of "c. 1200 (approx.)" = digits_of "1200" /\
  has_letter_s "c. 1200 (approx.)" = has_letter_s "1200" /\
  bc_marker "c. 1200 (approx.)" = bc_marker "1200" /\
  parse_date (Some "c. 1200 (approx.)") = parse_date (Some "1200").
Proof.
  repeat (split; [reflexivity|]).
  apply (parse_date_reads_only "c. 1200 (approx.)" "1200"); reflexivity.
Defined.







(** ** list.sort: sorted input and filters *)

Section ListSortMore.

Context {K A : Type} (lt : K -> K -> bool).

Hypothesis lt_asym : forall a b, lt a b = true -> lt b a = false.
Hypothesis lt_ntrans :
  forall a b c, lt a b = false -> lt b c = false -> lt a c = false.

Let le (a b : K * A) : Prop := lt b.1 a.1 = false.

Lemma insert_sorted_front (x : K * A) (l : list (K * A)) :
  Forall (le x) l -> insert_sorted lt x l = x :: l.
Proof.
  destruct 1 as [|y l Hy _]; [reflexivity|].
  cbn [insert_sorted]. unfold le in Hy. rewrite Hy. reflexivity.
Qed.

Lemma stable_sort_of_sorted (l : list (K * A)) :
  StronglySorted le l -> stable_sort lt l = l.
Proof.
  induction 1 as [|x l Hl IH Hx]; [reflexivity|].
  cbn [stable_sort]. rewrite IH. apply insert_sorted_front, Hx.
Qed.

Lemma sort_decorated_idem (reverse : bool) (d : list (K * A)) :
  sort_decorated lt reverse (sort_decorated lt reverse d) =
  sort_decorated lt reverse d.
Proof using lt_asym lt_ntrans.
  unfold sort_decorated. destruct reverse.
  - rewrite rev_involutive. f_equal.
    apply stable_sort_of_sorted, stable_sort_sorted; assumption.
  - apply stable_sort_of_sorted, stable_sort_sorted; assumption.
Qed.

Variable p : K * A -> bool.

Lemma insert_sorted_filter_comm (x : K * A) (l : list (K * A)) :
  StronglySorted le l ->
  List.filter p (insert_sorted lt x l) =
  if p x then insert_sorted lt x (List.filter p l) else List.filter p l.
Proof using lt_ntrans.
  induction 1 as [|y l Hl IH Hy].
  - cbn [insert_sorted List.filter]. destruct (p x); reflexivity.
  - cbn [insert_sorted]. destruct (lt y.1 x.1) eqn:Hyx.
    + cbn [List.filter]. rewrite IH.
      destruct (p y), (p x); cbn [insert_sorted]; rewrite ?Hyx; reflexivity.
    + assert (Forall (le x) (y :: l)) as Hx.
      { constructor; [exact Hyx|]. eapply Forall_impl; [exact Hy|].
        intros z Hz. unfold le in *. eapply lt_ntrans; eassumption. }
      change (List.filter p (x :: y :: l)) with
        (if p x then x :: List.filter p (y :: l) else List.filter p (y :: l)).
      destruct (p x); [|reflexivity].
      symmetry. apply insert_sorted_front.
      apply List.Forall_forall. intros z Hz. apply List.filter_In in Hz as [Hz _].
      rewrite List.Forall_forall in Hx. apply Hx, Hz.
Qed.

Lemma stable_sort_filter_comm (l : list (K * A)) :
  List.filter p (stable_sort lt l) = stable_sort lt (List.filter p l).
Proof using lt_asym lt_ntrans.
  induction l as [|x l IH]; [reflexivity|].
  cbn [stable_sort List.filter].
  rewrite insert_sorted_filter_comm by (apply stable_sort_sorted; assumption).
  rewrite IH. destruct (p x); reflexivity.
Qed.

Lemma sort_decorated_filter_comm (reverse : bool) (d : list (K * A)) :
  List.filter p (sort_decorated lt reverse d) =
  sort_decorated lt reverse (List.filter p d).
Proof using lt_asym lt_ntrans.
  unfold sort_decorated. destruct reverse.
  - rewrite List.filter_rev, stable_sort_filter_comm, List.filter_rev.
    reflexivity.
  - apply stable_sort_filter_comm.
Qed.

End ListSortMore.

(** ** sort_books: failure, small inputs, repeated and filtered sorts *)

Lemma not_normalise_bad_date (b : book) :
  ~ dates_normalise b <-> has_bad_date b.
Proof.
  unfold dates_normalise, has_bad_date.
  pose proof (parse_date_raw (get b "original_date" "")) as Ho.
  pose proof (parse_date_raw (get b "release_date" "")) as Hr.
  split.
  - intros Hn.
    destruct (has_letter_s (get b "original_date" "")) eqn:Hso;
      [destruct (digits_of (get b "original_date" "")) eqn:Hdo|].
    + exists "original_date". auto.
    + destruct (has_letter_s (get b "release_date" "")) eqn:Hsr;
        [destruct (digits_of (get b "release_date" "")) eqn:Hdr|].
      * exists "release_date". auto.
      * exfalso. apply Hn. rewrite Ho, Hr. eauto.
      * exfalso. apply Hn. rewrite Ho, Hr. eauto.
    + destruct (has_letter_s (get b "release_date" "")) eqn:Hsr;
        [destruct (digits_of (get b "release_date" "")) eqn:Hdr|].
      * exists "release_date". auto.
      * exfalso. apply Hn. rewrite Ho, Hr. eauto.
      * exfalso. apply Hn. rewrite Ho, Hr. eauto.
  - intros (field & [-> | ->] & Hs & Hd) [[y Hy] [y' Hy']].
    + rewrite Ho, Hs, Hd in Hy. discriminate Hy.
    + rewrite Hr, Hs, Hd in Hy'. discriminate Hy'.
Qed.


(** X6.  [sort_books] raises, in either direction, exactly when a date
    field of some record is a text with the letter s and without a digit;
    the exception is the [ValueError] of [parse_date]. *)
Theorem sort_books_fails_iff (books : list book) (reverse : bool) :
  (sort_books books reverse = Raise ValueError <->
   Exists has_bad_date books) /\
  ((exists out, sort_books books reverse = Ret out) <->
   Forall (fun b => ~ has_bad_date b) books).
Proof.
  assert (Exists has_bad_date books <->
          exists e, sort_books books reverse = Raise e) as Hex.
  { rewrite sort_books_raises. apply Exists_proper; [|reflexivity].
    intros b. symmetry. apply not_normalise_bad_date. }
  split.
  - rewrite Hex. split; [eauto | intros [[] H]; exact H].
  - rewrite List.Forall_Exists_neg, Hex. split.
    + intros [out Hout] [e He]. congruence.
    + intros Hn. destruct (sort_books books reverse) as [out|e]; [eauto|].
      exfalso. apply Hn. eauto.
Qed.

Lemma combine_map_self {A B : Type} (f : A -> B) (l : list A) :
  combine (map f l) l = map (fun x => (f x, x)) l.
Proof. induction l as [|x l IH]; simpl; [reflexivity|]. f_equal. exact IH. Qed.

Lemma normalised_keys (l : list book) :
  Forall dates_normalise l ->
  map_result sort_key l = Ret (map (fun b => (decorate b).1) l).
Proof.
  induction 1 as [|b l Hb _ IH]; [reflexivity|].
  apply dates_normalise_key in Hb as [k Hk].
  cbn [map_result map]. unfold decorate at 1. rewrite Hk, IH. reflexivity.
Qed.

Lemma keys_normalised (books : list book) (keys : list (Z * Z)) :
  map_result sort_key books = Ret keys -> Forall dates_normalise books.
Proof.
  rewrite map_result_Ret_Forall2.
  induction 1 as [|b k l ks Hk _ IH]; constructor; [|exact IH].
  apply dates_normalise_key. eauto.
Qed.

Lemma sort_books_normalised (books out : list book) (reverse : bool) :
  sort_books books reverse = Ret out -> Forall dates_normalise books.
Proof.
  intros Hout. destruct (map_result sort_key books) as [keys|e] eqn:Hk.
  - eapply keys_normalised, Hk.
  - unfold sort_books, sorted, list_sort in Hout. rewrite Hk in Hout.
    discriminate Hout.
Qed.

Lemma sort_books_decorate (books : list book) (reverse : bool) :
  Forall dates_normalise books ->
  sort_books books reverse =
  Ret (map snd (sort_decorated key_lt reverse (map decorate books))).
Proof.
  intros Hn. rewrite (sort_books_Ret _ _ _ (normalised_keys books Hn)).
  rewrite combine_map_self. reflexivity.
Qed.

Lemma filter_map_snd {K A : Type} (pb : A -> bool) (d : list (K * A)) :
  List.filter pb (map snd d) = map snd (List.filter (fun p => pb p.2) d).
Proof.
  induction d as [|x d IH]; simpl; [reflexivity|].
  destruct (pb x.2); simpl; rewrite IH; reflexivity.
Qed.

Lemma filter_map_decorate (pb : book -> bool) (l : list book) :
  List.filter (fun p => pb p.2) (map decorate l) =
  map decorate (List.filter pb l).
Proof.
  induction l as [|x l IH]; simpl; [reflexivity|].
  destruct (pb x); simpl; rewrite IH; reflexivity.
Qed.

Lemma Forall_filter_keep {A : Type} (P : A -> Prop) (pb : A -> bool)
    (l : list A) :
  Forall P l -> Forall P (List.filter pb l).
Proof.
  induction 1 as [|x l Hx _ IH]; simpl; [constructor|].
  destruct (pb x); [constructor; assumption | exact IH].
Qed.

Lemma decorated_out (d : list ((Z * Z) * book)) :
  Forall (fun p => sort_key p.2 = Ret p.1) d -> map decorate (map snd d) = d.
Proof.
  induction 1 as [|[k b] d Hk _ IH]; simpl; [reflexivity|].
  cbn [fst snd] in Hk. unfold decorate at 1. rewrite Hk, IH. reflexivity.
Qed.

(** X7.  The empty list sorts to the empty list, and a list of one record
    sorts to itself exactly when the dates of the record normalise, in
    either direction. *)
Theorem sort_books_small (b : book) (reverse : bool) :
  sort_books [] reverse = Ret [] /\
  (sort_books [b] reverse = Ret [b] <-> dates_normalise b).
Proof.
  split; [destruct reverse; reflexivity|]. split.
  - intros H. apply sort_books_normalised in H. inversion H; assumption.
  - intros Hb. rewrite sort_books_decorate by (constructor; [exact Hb|constructor]).
    destruct reverse; reflexivity.
Qed.

Lemma decorate_keys (l : list book) :
  Forall dates_normalise l ->
  Forall (fun p => sort_key p.2 = Ret p.1) (map decorate l).
Proof.
  induction 1 as [|b l Hb _ IH]; simpl; constructor; [|exact IH].
  apply dates_normalise_key in Hb as [k Hk].
  unfold decorate. cbn [fst snd]. rewrite Hk. reflexivity.
Qed.

(** X8.  Sorting is idempotent: the list [sort_books] returns sorts to
    itself in the same direction. *)
Theorem sort_books_idempotent (books out : list book) (reverse : bool) :
  sort_books books reverse = Ret out -> sort_books out reverse = Ret out.
Proof.
  intros Hout. pose proof (sort_books_normalised _ _ _ Hout) as Hn.
  rewrite (sort_books_decorate _ _ Hn) in Hout. injection Hout as <-.
  set (d := sort_decorated key_lt reverse (map decorate books)).
  assert (Forall (fun p => sort_key p.2 = Ret p.1) d) as Hd.
  { eapply Permutation_Forall; [|apply decorate_keys, Hn].
    symmetry. apply sort_decorated_perm. }
  rewrite sort_books_decorate.
  - rewrite (decorated_out _ Hd). unfold d.
    rewrite (sort_decorated_idem key_lt key_lt_asym key_lt_ntrans).
    reflexivity.
  - apply Forall_map. eapply Forall_impl; [exact Hd|].
    intros [k b] H. apply dates_normalise_key. eauto.
Qed.

Lemma sort_books_idempotent_witness :
  sort_books shelf true =
    Ret [dated "Dune" "1960s"; dated "Silent Spring" "1963";
         make_book [("title", "Untitled")];
         dated "De rerum natura" "80 BC"] /\
  sort_books
    [dated "Dune" "1960s"; dated "Silent Spring" "1963";
     make_book [("title", "Untitled")]; dated "De rerum natura" "80 BC"]
    true =
    Ret [dated "Dune" "1960s"; dated "Silent Spring" "1963";
         make_book [("title", "Untitled")];
         dated "De rerum natura" "80 BC"].
Proof.
  split; [vm_compute; reflexivity|].
  apply (sort_books_idempotent shelf _ true). vm_compute. reflexivity.
Defined.

(** X9.  Searching and sorting commute: when [sort_books] returns on a
    list, it returns on the filtered list too, and sorting the filtered
    list gives the filtered sorted list. *)
Theorem sort_books_filter_books (books out : list book) (reverse : bool)
    (search_query : string) :
  sort_books books reverse = Ret out ->
  sort_books (filter_books books search_query) reverse =
  Ret (filter_books out search_query).
Proof.
  intros Hout. pose proof (sort_books_normalised _ _ _ Hout) as Hn.
  rewrite (sort_books_decorate _ _ Hn) in Hout. injection Hout as <-.
  rewrite !filter_books_filter.
  rewrite sort_books_decorate by (apply Forall_filter_keep, Hn).
  rewrite filter_map_snd.
  rewrite (sort_decorated_filter_comm key_lt key_lt_asym key_lt_ntrans).
  rewrite filter_map_decorate. reflexivity.
Qed.

Lemma sort_books_filter_books_witness :
  sort_books [hobbit; first_printing; second_printing] false =
    Ret [first_printing; second_printing; hobbit] /\
  sort_books (filter_books [hobbit; first_printing; second_printing] "o")
    false =
    Ret (filter_books [first_printing; second_printing; hobbit] "o").
Proof.
  split; [vm_compute; reflexivity|].
  apply (sort_books_filter_books [hobbit; first_printing; second_printing]).
  vm_compute. reflexivity.
Defined.

(** X10.  When no two records have the same sort key, the result does not
    depend on the order of the input: two lists with the same records
    sort to the same list. *)
Theorem sort_books_order_free (books books' : list book)
    (keys : list (Z * Z)) (reverse : bool) :
  Permutation books books' ->
  map_result sort_key books = Ret keys -> NoDup keys ->
  sort_books books' reverse = sort_books books reverse.
Proof.
  intros Hp Hk Hnd.
  pose proof (keys_normalised _ _ Hk) as Hn.
  assert (Forall dates_normalise books') as Hn'
    by (eapply Permutation_Forall; eassumption).
  rewrite !sort_books_decorate by assumption. f_equal. f_equal.
  assert (NoDup (map fst (map decorate books))) as Hnd0.
  { rewrite (normalised_keys books Hn) in Hk. injection Hk as <-.
    rewrite map_map. exact Hnd. }
  assert (Permutation (map decorate books') (map decorate books)) as Hpd
    by (apply Permutation_map; symmetry; exact Hp).
  unfold sort_decorated. destruct reverse.
  - f_equal. apply (sorted_perm_unique key_lt key_lt_total);
      try (apply stable_sort_sorted; [apply key_lt_asym|apply key_lt_ntrans]).
    + rewrite !stable_sort_perm, <- !Permutation_rev. exact Hpd.
    + eapply NoDup_Permutation_proper; [|exact Hnd0].
      apply Permutation_map. rewrite stable_sort_perm, <- Permutation_rev.
      exact Hpd.
  - apply (sorted_perm_unique key_lt key_lt_total);
      try (apply stable_sort_sorted; [apply key_lt_asym|apply key_lt_ntrans]).
    + rewrite !stable_sort_perm. exact Hpd.
    + eapply NoDup_Permutation_proper; [|exact Hnd0].
      apply Permutation_map. rewrite stable_sort_perm. exact Hpd.
Qed.

Lemma sort_books_order_free_witness :
  Permutation shelf (rev shelf) /\
  map_result sort_key shelf = Ret [(1963, 0); (-80, 0); (1965, 0); (0, 0)] /\
  NoDup [(1963, 0); (-80, 0); (1965, 0); (0, 0)] /\
  sort_books (rev shelf) true = sort_books shelf true.
Proof.
  assert (NoDup [(1963, 0); (-80, 0); (1965, 0); (0, 0)]) as Hnd
    by (apply (bool_decide_unpack _); vm_compute; exact I).
  split; [apply Permutation_rev|]. split; [reflexivity|].
  split; [exact Hnd|].
  apply (sort_books_order_free shelf (rev shelf)
           [(1963, 0); (-80, 0); (1965, 0); (0, 0)] true);
    [apply Permutation_rev | reflexivity | exact Hnd].
Defined.

(** ** The search filter: refining a query *)

Lemma contains_trans (a b c : list ascii) :
  Str.contains a b = true -> Str.contains b c = true ->
  Str.contains a c = true.
Proof.
  rewrite !contains_spec. intros (l & r & ->) (l' & r' & ->).
  exists (l' ++ l)%list, (r ++ r')%list.
  repeat (rewrite <- ?app_assoc; simpl). reflexivity.
Qed.

Lemma matches_mono (q q' : list ascii) (b : book) :
  Str.contains q q' = true -> matches q' b = true -> matches q b = true.
Proof.
  intros Hq. unfold matches. rewrite !orb_true_iff.
  intros [H|H]; [left|right]; eapply contains_trans; eassumption.
Qed.

Lemma filter_filter_implies {A : Type} (p p' : A -> bool) (l : list A) :
  (forall x, p' x = true -> p x = true) ->
  List.filter p' (List.filter p l) = List.filter p' l.
Proof.
  intros Hp. induction l as [|x l IH]; simpl; [reflexivity|].
  destruct (p x) eqn:Hx; simpl.
  - rewrite IH. reflexivity.
  - destruct (p' x) eqn:Hx'; [|exact IH].
    apply Hp in Hx'. congruence.
Qed.

(** X11.  Refining a query narrows the result: when the query [q] occurs
    in the query [q'] (up to case), searching for [q'] among the records
    found for [q] gives the records found for [q'] in the whole list, and
    these are a subsequence of the records found for [q]. *)
Theorem filter_books_refine (books : list book) (q q' : string) :
  Str.contains (Str.lower (Str.chars q)) (Str.lower (Str.chars q')) = true ->
  filter_books (filter_books books q) q' = filter_books books q' /\
  sublist (filter_books books q') (filter_books books q).
Proof.
  intros Hq. rewrite !filter_books_filter.
  assert (List.filter (matches (Str.lower (Str.chars q')))
            (List.filter (matches (Str.lower (Str.chars q))) books) =
          List.filter (matches (Str.lower (Str.chars q'))) books) as H
    by (apply filter_filter_implies; intros b; apply matches_mono, Hq).
  split; [exact H|]. rewrite <- H. apply filter_sublist.
Qed.

Lemma filter_books_refine_witness :
  Str.contains (Str.lower (Str.chars "Uly"))
    (Str.lower (Str.chars "ULYSSES (")) = true /\
  filter_books
    (filter_books [hobbit; first_printing; second_printing] "Uly")
    "ULYSSES (" = [second_printing] /\
  sublist (filter_books [hobbit; first_printing; second_printing] "ULYSSES (")
    (filter_books [hobbit; first_printing; second_printing] "Uly").
Proof.
  split; [reflexivity|].
  pose proof (filter_books_refine [hobbit; first_printing; second_printing]
                "Uly" "ULYSSES (" eq_refl) as [H1 H2].
  split; [|exact H2]. rewrite H1. vm_compute. reflexivity.
Defined.

(** ** The page *)



(** X13.  The warning that no book matches is the whole page exactly when
    the file holds records and none of them matches the query; with the
    empty query it never shows. *)
Theorem page_no_match_iff (path_exists : string -> bool)
    (image_fails : string -> option string) (books : list book)
    (search_query : string) (sort_reverse : bool) :
  (page path_exists image_fails (Some books) search_query sort_reverse
   = Ret [StWarning "No books match the search query."] <->
   books <> [] /\
   Forall (fun b => matches (Str.lower (Str.chars search_query)) b = false)
     books) /\
  (search_query = "" ->
   page path_exists image_fails (Some books) search_query sort_reverse
   <> Ret [StWarning "No books match the search query."]).
Proof.
  assert (filter_books books search_query = [] <->
          Forall (fun b =>
                    matches (Str.lower (Str.chars search_query)) b = false)
            books) as Hnone.
  { rewrite filter_books_filter. induction books as [|b l IH]; simpl.
    - split; [constructor | reflexivity].
    - destruct (matches _ b) eqn:Hb.
      + split; [discriminate | intros H; inversion H; congruence].
      + rewrite IH. split; [constructor; assumption
                           | intros H; inversion H; assumption]. }
  assert (page path_exists image_fails (Some books) search_query sort_reverse
          = Ret [StWarning "No books match the search query."] <->
          books <> [] /\ filter_books books search_query = []) as Hpage.
  { cbn [page]. destruct books as [|b l].
    - split; [intros H; discriminate H | intros [H _]; congruence].
    - destruct (filter_books (b :: l) search_query) as [|b' fb] eqn:Hf.
      + split; [intros _; split; [discriminate | reflexivity] | reflexivity].
      + split; [|intros [_ H]; discriminate H].
        destruct (sort_books (b' :: fb) sort_reverse); intros H;
          discriminate H. }
  split.
  - rewrite Hpage, Hnone. reflexivity.
  - intros -> H. apply Hpage in H as [Hne Hf]. cbn [filter_books] in Hf.
    contradiction.
Qed.

Lemma page_no_match_iff_witness :
  page (fun _ => true) (fun _ => None) (Some [hobbit]) "joyce" false
  = Ret [StWarning "No books match the search query."] /\
  page (fun _ => true) (fun _ => None) (Some [hobbit]) "" false
  <> Ret [StWarning "No books match the search query."].
Proof.
  split.
  - apply (proj1 (page_no_match_iff (fun _ => true) (fun _ => None)
                    [hobbit] "joyce" false)).
    split; [discriminate|]. repeat constructor.
  - apply (proj2 (page_no_match_iff (fun _ => true) (fun _ => None)
                    [hobbit] "" false)). reflexivity.
Defined.

(** ** main.py: the image paths *)

Lemma ends_with_spec (suffix l : list ascii) :
  ends_with suffix l = true <-> exists stem, l = (stem ++ suffix)%list.
Proof.
  unfold ends_with. rewrite starts_with_spec. split.
  - intros [r Hr]. exists (rev r).
    apply (f_equal (@rev ascii)) in Hr.
    rewrite rev_involutive, rev_app_distr, rev_involutive in Hr. exact Hr.
  - intros [stem ->]. exists (rev stem). apply rev_app_distr.
Qed.

Lemma is_image_spec (f : string) :
  is_image f = true <->
  exists suffix stem,
    In suffix image_suffixes /\
    Str.lower (Str.chars f) = (stem ++ Str.chars suffix)%list.
Proof.
  unfold is_image. rewrite existsb_exists. split.
  - intros (suffix & Hin & H). apply ends_with_spec in H as [stem H]. eauto.
  - intros (suffix & stem & Hin & H). exists suffix. split; [exact Hin|].
    apply ends_with_spec. eauto.
Qed.

Lemma path_join_image_dir (f : string) :
  Str.starts_with (Str.chars "/") (Str.chars f) = false ->
  path_join IMAGE_DIR f = IMAGE_DIR ++ f.
Proof. intros H. unfold path_join. rewrite H. reflexivity. Qed.

(** X14.  From names that do not begin with a slash, as [os.listdir]
    gives them, [main] collects exactly the paths [IMAGE_DIR ++ f] of the
    names [f] whose lowercase form ends with ".jpg", ".jpeg" or ".png";
    the test does not look at the case of the name. *)
Theorem image_paths_spec (names : list string) (p : string) :
  Forall (fun f => Str.starts_with (Str.chars "/") (Str.chars f) = false)
    names ->
  (In p (image_paths names) <->
   exists f suffix stem,
     In f names /\ p = "./Data/IMGS/" ++ f /\
     In suffix [".jpg"; ".jpeg"; ".png"] /\
     Str.lower (Str.chars f) = (stem ++ Str.chars suffix)%list).
Proof.
  intros Hn. unfold image_paths. rewrite in_map_iff. split.
  - intros (f & <- & Hf). apply List.filter_In in Hf as [Hin Him].
    apply is_image_spec in Him as (suffix & stem & Hs & Hl).
    exists f, suffix, stem. repeat split; try assumption.
    apply path_join_image_dir.
    rewrite List.Forall_forall in Hn. apply Hn, Hin.
  - intros (f & suffix & stem & Hin & -> & Hs & Hl). exists f. split.
    + apply path_join_image_dir.
      rewrite List.Forall_forall in Hn. apply Hn, Hin.
    + apply List.filter_In. split; [exact Hin|]. apply is_image_spec. eauto.
Qed.

Lemma image_paths_spec_witness :
  Forall (fun f => Str.starts_with (Str.chars "/") (Str.chars f) = false)
    ["dune.JPG"; "notes.txt"; "cover.png"] /\
  image_paths ["dune.JPG"; "notes.txt"; "cover.png"] =
    ["./Data/IMGS/dune.JPG"; "./Data/IMGS/cover.png"] /\
  In "./Data/IMGS/dune.JPG"
    (image_paths ["dune.JPG"; "notes.txt"; "cover.png"]).
Proof.
  assert (Forall
            (fun f => Str.starts_with (Str.chars "/") (Str.chars f) = false)
            ["dune.JPG"; "notes.txt"; "cover.png"]) as Hn
    by (repeat constructor).
  split; [exact Hn|]. split; [reflexivity|].
  apply (proj2 (image_paths_spec _ "./Data/IMGS/dune.JPG" Hn)).
  exists "dune.JPG", ".jpg", (Str.chars "dune").
  repeat split; simpl; auto.
Defined.

(** ** extractor.py and main.py *)

Section RunFacts.

Context {V C : Type} (w : Extractor.world V C).

Lemma size_insert_pos (k : string) (v : V) (d : gmap string V) :
  size (<[k := v]> d) <> 0%nat.
Proof.
  intros H. apply map_size_empty_iff in H.
  apply (f_equal (fun m => m !! k)) in H.
  rewrite lookup_insert_eq, lookup_empty in H. discriminate H.
Qed.

(** X15.  [extract_book_info] gives a dict that is not empty exactly when
    the image was read, the model answered and the answer decoded to a
    dict: the result is then that dict with its "image_path" set to the
    path of the call, whatever the answer held there, and nothing is
    printed.  It raises exactly when the call of the model raises
    [json.JSONDecodeError], and then [UnboundLocalError]; in every other
    case it prints one line and returns the empty dict. *)
Theorem extract_book_info_cases (image_path ollama_host model_name : string) :
  let run := Extractor.extract_book_info w image_path ollama_host model_name in
  (forall info,
      run.2 = Extractor.Returns info /\ size info <> 0%nat <->
      exists base64_image content d,
        Extractor.read_base64 w image_path = Some base64_image /\
        Extractor.invoke w ollama_host model_name (Extractor.prompt w)
          ("data:image/jpeg;base64," ++ base64_image)
        = Extractor.Response content /\
        Extractor.loads w content = Extractor.Dict d /\
        info = <["image_path" := Extractor.str_value w image_path]> d /\
        info !! "image_path" = Some (Extractor.str_value w image_path) /\
        run.1 = []) /\
  (forall e,
      run.2 = Extractor.Raises e <->
      e = Extractor.UnboundLocalError /\
      exists base64_image,
        Extractor.read_base64 w image_path = Some base64_image /\
        Extractor.invoke w ollama_host model_name (Extractor.prompt w)
          ("data:image/jpeg;base64," ++ base64_image)
        = Extractor.CallJSONDecodeError) /\
  (forall info,
      run.2 = Extractor.Returns info -> size info = 0%nat ->
      info = ∅ /\ length run.1 = 1%nat).
Proof.
  cbv zeta. unfold Extractor.extract_book_info.
  destruct (Extractor.read_base64 w image_path) as [b64|] eqn:Hr.
  2: { split; [|split].
       - intros info. split.
         + intros [[= <-] Hs]. rewrite map_size_empty in Hs. congruence.
         + intros (? & ? & ? & H & _). discriminate H.
       - intros e. split; [discriminate|].
         intros [_ (? & H & _)]. discriminate H.
       - intros info [= <-] _. auto. }
  destruct (Extractor.invoke w ollama_host model_name (Extractor.prompt w)
              ("data:image/jpeg;base64," ++ b64)) as [content| |] eqn:Hi.
  - destruct (Extractor.loads w content) as [d| | |] eqn:Hl; cbn [fst snd].
    + split; [|split].
      * intros info. split.
        -- intros [[= <-] _]. exists b64, content, d.
           rewrite lookup_insert_eq. auto 10.
        -- intros (b' & c' & d' & [= <-] & Hi' & Hl' & -> & _).
           rewrite Hi in Hi'. injection Hi' as <-.
           rewrite Hl in Hl'. injection Hl' as <-.
           split; [reflexivity | apply size_insert_pos].
      * intros e. split; [discriminate|].
        intros [_ (b' & [= <-] & H)]. congruence.
      * intros info [= <-] Hs. exfalso. exact (size_insert_pos _ _ _ Hs).
    + split; [|split].
      * intros info. split.
        -- intros [[= <-] Hs]. rewrite map_size_empty in Hs. congruence.
        -- intros (b' & c' & d' & [= <-] & Hi' & Hl' & _).
           rewrite Hi in Hi'. injection Hi' as <-. congruence.
      * intros e. split; [discriminate|].
        intros [_ (b' & [= <-] & H)]. congruence.
      * intros info [= <-] _. auto.
    + split; [|split].
      * intros info. split.
        -- intros [[= <-] Hs]. rewrite map_size_empty in Hs. congruence.
        -- intros (b' & c' & d' & [= <-] & Hi' & Hl' & _).
           rewrite Hi in Hi'. injection Hi' as <-. congruence.
      * intros e. split; [discriminate|].
        intros [_ (b' & [= <-] & H)]. congruence.
      * intros info [= <-] _. auto.
    + split; [|split].
      * intros info. split.
        -- intros [[= <-] Hs]. rewrite map_size_empty in Hs. congruence.
        -- intros (b' & c' & d' & [= <-] & Hi' & Hl' & _).
           rewrite Hi in Hi'. injection Hi' as <-. congruence.
      * intros e. split; [discriminate|].
        intros [_ (b' & [= <-] & H)]. congruence.
      * intros info [= <-] _. auto.
  - cbn [fst snd]. split; [|split].
    + intros info. split; [intros [H _]; discriminate H|].
      intros (b' & c' & d' & [= <-] & Hi' & _). congruence.
    + intros e. split; [intros [= <-]; eauto | intros [-> _]; reflexivity].
    + intros info H. discriminate H.
  - cbn [fst snd]. split; [|split].
    + intros info. split.
      * intros [[= <-] Hs]. rewrite map_size_empty in Hs. congruence.
      * intros (b' & c' & d' & [= <-] & Hi' & _). congruence.
    + intros e. split; [discriminate|].
      intros [_ (b' & [= <-] & H)]. congruence.
    + intros info [= <-] _. auto.
Qed.

End RunFacts.

Section MainFacts.

Context {V C : Type} (w : Extractor.world V C).

Let run (p : string) := Extractor.extract_book_info w p OLLAMA_HOST MODEL_NAME.

Lemma extract_returns_cases (p h m : string) (info : gmap string V) :
  (Extractor.extract_book_info w p h m).2 = Extractor.Returns info ->
  info = ∅ \/ info !! "image_path" = Some (Extractor.str_value w p).
Proof.
  unfold Extractor.extract_book_info.
  destruct (Extractor.read_base64 w p); [|intros [= <-]; auto].
  destruct (Extractor.invoke w h m _ _) as [content| |];
    [|discriminate|intros [= <-]; auto].
  destruct (Extractor.loads w content); intros [= <-]; auto.
  right. apply lookup_insert_eq.
Qed.


Lemma process_returns (paths : list string) :
  forall books errors printed printed' books' errors',
    Extractor.process w paths books errors printed
    = (printed', Extractor.Returns (books', errors')) ->
    exists infos,
      books' = (books ++ infos)%list /\
      errors' =
        (errors ++ List.filter (fun p => negb (extracts w p)) paths)%list /\
      Forall2 (fun info p => (run p).2 = Extractor.Returns info)
        infos (List.filter (extracts w) paths).
Proof.
  induction paths as [|p paths IH]; intros books errors printed printed'
    books' errors' H.
  - cbn [Extractor.process] in H. injection H as _ <- <-.
    exists []. rewrite !app_nil_r. repeat split. constructor.
  - cbn [Extractor.process] in H.
    destruct (Extractor.extract_book_info w p OLLAMA_HOST MODEL_NAME)
      as [lines r] eqn:Hrun.
    destruct r as [info|e]; [|discriminate H].
    assert (extracts w p = negb (Nat.eqb (size info) 0)) as Hex
      by (unfold extracts; rewrite Hrun; reflexivity).
    assert ((run p).2 = Extractor.Returns info) as Hp
      by (unfold run; rewrite Hrun; reflexivity).
    cbn [List.filter]. rewrite Hex.
    destruct (Nat.eqb (size info) 0); cbn [negb].
    + apply IH in H as (infos & -> & -> & Hf). exists infos.
      rewrite <- app_assoc. auto.
    + apply IH in H as (infos & -> & -> & Hf). exists (info :: infos).
      rewrite <- app_assoc. repeat split. constructor; [exact Hp|exact Hf].
Qed.


(** X16.  When [main] returns, the output file is written exactly when
    the extraction kept the record of at least one image; the list it
    dumps is never empty and holds, in the order of the listing, one
    record for each image whose extraction gave a dict that is not empty,
    each with its "image_path" set to the path of its image. *)
Theorem main_saves (printed : list (Extractor.line C))
    (saved : option (list (gmap string V))) :
  Extractor.main w = (printed, Extractor.Returns saved) ->
  exists names,
    Extractor.listdir w IMAGE_DIR = Some names /\
    match saved with
    | None => List.filter (extracts w) (image_paths names) = []
    | Some books =>
        books <> [] /\
        Forall2
          (fun info p =>
             (Extractor.extract_book_info w p OLLAMA_HOST MODEL_NAME).2
             = Extractor.Returns info /\
             info !! "image_path" = Some (Extractor.str_value w p))
          books (List.filter (extracts w) (image_paths names))
    end.
Proof.
  unfold Extractor.main.
  destruct (Extractor.listdir w IMAGE_DIR) as [names|]; [|discriminate].
  destruct (Extractor.process w (image_paths names) [] [] [])
    as [printed0 r] eqn:Hp.
  destruct r as [[books errors]|e]; [|discriminate].
  apply process_returns in Hp as (infos & -> & _ & Hf). cbn [app] in *.
  intros H. exists names. split; [reflexivity|].
  assert (Forall2
            (fun info p =>
               (Extractor.extract_book_info w p OLLAMA_HOST MODEL_NAME).2
               = Extractor.Returns info /\
               info !! "image_path" = Some (Extractor.str_value w p))
            infos (List.filter (extracts w) (image_paths names))) as Hf'.
  { clear H. assert (Forall (fun p => extracts w p = true)
                       (List.filter (extracts w) (image_paths names))) as Hall.
    { apply List.Forall_forall. intros p Hin.
      apply List.filter_In in Hin as [_ Hin]. exact Hin. }
    induction Hf as [|info p infos ps Hi _ IH]; constructor.
    - split; [exact Hi|]. inversion Hall as [|? ? Hex _]; subst.
      unfold extracts in Hex. fold (run p) in Hex. rewrite Hi in Hex.
      destruct (extract_returns_cases _ _ _ _ Hi) as [-> | Hk]; [|exact Hk].
      rewrite map_size_empty in Hex. discriminate Hex.
    - apply IH. inversion Hall; assumption. }
  destruct infos as [|info infos].
  - injection H as _ <-. inversion Hf'. reflexivity.
  - injection H as _ <-. split; [discriminate | exact Hf'].
Qed.


End MainFacts.

Example main_sample :
  (Extractor.main sample_world).2 =
  Extractor.Returns
    (Some [<["image_path" := "./Data/IMGS/dune.JPG"]> (dated "Dune" "1960s");
           <["image_path" := "./Data/IMGS/cover.png"]> (dated "Dune" "1960s")]).
Proof. vm_compute. reflexivity. Qed.

Lemma main_saves_witness :
  exists names,
    Extractor.listdir sample_world IMAGE_DIR = Some names /\
    exists books,
      (Extractor.main sample_world).2 = Extractor.Returns (Some books) /\
      books <> [] /\
      Forall2
        (fun info p =>
           (Extractor.extract_book_info sample_world p OLLAMA_HOST
              MODEL_NAME).2 = Extractor.Returns info /\
           info !! "image_path" = Some p)
        books (List.filter (extracts sample_world) (image_paths names)).
Proof.
  destruct (Extractor.main sample_world) as [printed r] eqn:Hm.
  assert (exists books, r = Extractor.Returns (Some books)) as [books ->].
  { pose proof main_sample as H. rewrite Hm in H. cbn [snd] in H. eauto. }
  destruct (main_saves sample_world printed (Some books) Hm)
    as (names & Hl & Hne & Hf).
  exists names. split; [exact Hl|]. exists books. auto.
Defined.
